(** * ESPN play-by-play normalisation ([espn.py])

    A shallow embedding of the row-normalisation code of [espn.py]
    ([adjust_game], [_adjust_time], [_league_time], [_calc_overall_time],
    [_play_as_dict]) and the properties of it that the specification states.

    Conventions of the embedding.
    - Python [int] is [Z].  Python [str] is [string], on the ASCII subset:
      the clock, score and logo cells of the page are ASCII.  The limit
      that recent interpreters put on the number of digits [int] accepts
      (4300 unless configured otherwise) is left out.
    - A raised exception is the [Raise] branch of [result]; the exceptions
      are the built-in ones that the code can raise, it defines none.
    - A [datetime.timedelta] built from whole minutes and seconds is its
      total number of seconds; the constructor, the difference and the sum
      raise [OverflowError] outside the range of 999999999 days.
    - A play dictionary is a [gmap string value].
    - A row (a [bs4] tag) is the record of what each [play.find] call of the
      code returns on it; [bs4] itself is not modelled.
    - [away_team], a module-level global that [parse_plays] sets before it
      calls [adjust_game], is an explicit argument. *)

From Stdlib Require Import ZArith Ascii String List Lia.
From Stdlib Require Import DecimalString DecimalPos DecimalZ.
From stdpp Require Import base decidable option list strings gmap fin_maps.

Local Open Scope string_scope.
Local Open Scope Z_scope.

(** * The embedding *)

(** ** Exceptions and the error monad *)

Inductive exn : Type :=
| AttributeError
| ValueError
| IndexError
| KeyError
| OverflowError.

Inductive result (A : Type) : Type :=
| Ok (a : A)
| Raise (e : exn).
Arguments Ok {A} a.
Arguments Raise {A} e.

#[global] Instance result_bind : MBind result := fun A B k r =>
  match r with
  | Ok a => k a
  | Raise e => Raise e
  end.

#[global] Instance result_ret : MRet result := fun A a => Ok a.

#[global] Instance exn_eq_dec : EqDecision exn.
Proof. solve_decision. Defined.

#[global] Instance result_eq_dec {A : Type} `{EqDecision A} :
  EqDecision (result A).
Proof. solve_decision. Defined.

(** [o] when it is there, the exception [e] otherwise. *)
Definition from_option {A : Type} (e : exn) (o : option A) : result A :=
  match o with
  | Some a => Ok a
  | None => Raise e
  end.

(** ** Strings *)

Module Str.

Definition chars (s : string) : list ascii := list_ascii_of_string s.
Definition of_chars (l : list ascii) : string := string_of_list_ascii l.

(** The value of a character of [0123456789]. *)
Definition digit_value (c : ascii) : option Z :=
  let n := Z.of_N (N_of_ascii c) in
  if (48 <=? n) && (n <=? 57) then Some (n - 48) else None.

(** The whitespace that [int] skips around an ASCII text: tab, newline,
    vertical tab, form feed, carriage return and space. *)
Definition is_space (c : ascii) : bool :=
  let n := Z.of_N (N_of_ascii c) in
  ((9 <=? n) && (n <=? 13)) || (n =? 32).

Fixpoint lstrip (l : list ascii) : list ascii :=
  match l with
  | c :: r => if is_space c then lstrip r else l
  | [] => []
  end.

Definition strip (l : list ascii) : list ascii :=
  rev (lstrip (rev (lstrip l))).

(** Digits with single underscores between them: [seen] tells that the
    previous character was a digit, so that an underscore may follow. *)
Fixpoint digits (acc : Z) (seen : bool) (l : list ascii) : option Z :=
  match l with
  | [] => if seen then Some acc else None
  | c :: r =>
      match digit_value c with
      | Some d => digits (10 * acc + d) true r
      | None =>
          if Ascii.eqb c "_"%char
          then (if seen then digits acc false r else None)
          else None
      end
  end.

(** [int(s)] in base 10: surrounding whitespace, an optional sign, digits
    with single underscores between them; [ValueError] otherwise. *)
Definition int (s : string) : result Z :=
  match strip (chars s) with
  | "+"%char :: r => from_option ValueError (digits 0 false r)
  | "-"%char :: r => from_option ValueError (Z.opp <$> digits 0 false r)
  | l => from_option ValueError (digits 0 false l)
  end.

(** [s.split(sep)] and [re.split(sep, s)] for a one-character separator:
    the pieces between the separators, never an empty list. *)
Fixpoint split_chars (sep : ascii) (cur : list ascii) (l : list ascii)
  : list string :=
  match l with
  | [] => [of_chars (rev cur)]
  | c :: r =>
      if Ascii.eqb c sep
      then of_chars (rev cur) :: split_chars sep [] r
      else split_chars sep (c :: cur) r
  end.

Definition split (sep : ascii) (s : string) : list string :=
  split_chars sep [] (chars s).

(** [s.upper()] on ASCII. *)
Definition upper_char (c : ascii) : ascii :=
  let n := N_of_ascii c in
  if ((97 <=? n) && (n <=? 122))%N then ascii_of_N (n - 32) else c.

Definition upper (s : string) : string :=
  of_chars (map upper_char (chars s)).

(** ['%d' % z] *)
Definition of_int (z : Z) : string := NilZero.string_of_int (Z.to_int z).

(** ['%02d' % z] *)
Definition of_int02 (z : Z) : string :=
  if (0 <=? z) && (z <? 10) then "0" +:+ of_int z else of_int z.

End Str.

(** ** [datetime.timedelta] *)

Module Timedelta.

Definition max_days : Z := 999999999.

(** A duration of [t] seconds, when its day count is in range. *)
Definition check (t : Z) : result Z :=
  if Z.abs (t / 86400) <=? max_days then Ok t else Raise OverflowError.

(** [timedelta(minutes=m, seconds=s)] *)
Definition make (minutes seconds : Z) : result Z :=
  check (60 * minutes + seconds).

(** [a - b] and [a + b] *)
Definition sub (a b : Z) : result Z := check (a - b).
Definition add (a b : Z) : result Z := check (a + b).

(** [str(td)]: [H:MM:SS], preceded by [D day, ] or [D days, ] when the day
    count is not zero. *)
Definition str (t : Z) : string :=
  let days := t / 86400 in
  let secs := t mod 86400 in
  let mm := secs / 60 in
  let ss := secs mod 60 in
  let hh := mm / 60 in
  let mm := mm mod 60 in
  let s := Str.of_int hh +:+ ":" +:+ Str.of_int02 mm +:+ ":" +:+ Str.of_int02 ss in
  if days =? 0 then s
  else Str.of_int days +:+ " day"
       +:+ (if Z.abs days =? 1 then EmptyString else "s") +:+ ", " +:+ s.

End Timedelta.

(** ** Rows and play dictionaries *)

(** A value stored in a play dictionary. *)
Inductive value : Type :=
| VStr (s : string)
| VInt (z : Z).

#[global] Instance value_eq_dec : EqDecision value.
Proof. solve_decision. Defined.

Abbreviation dict := (gmap string value).

(** What the [play.find('td', {'class': ...})] calls of the code return on
    a row; [None] when no such cell is found. *)
Record row : Type := {
  (** the [.text] of the ['time-stamp'] cell *)
  find_time_stamp : option string;
  (** the markup ([str]) of the ['logo'] cell *)
  find_logo : option string;
  (** the [.text] of the ['game-details'] cell *)
  find_game_details : option string;
  (** whether a ['combined-score no-change'] cell is found *)
  find_no_change : bool;
  (** the [.text] of the ['combined-score '] cell *)
  find_combined_score : option string;
}.

(** ** The logo pattern

    [re.search('(?<=500/).+?(?=.png&amp;h=100&amp;w=100)', logo)]: at the
    leftmost position preceded by [500/], the shortest non-empty run of
    characters other than a newline that is followed by one more such
    character and [png&amp;h=100&amp;w=100]. *)

Module Re.

Definition is_newline (c : ascii) : bool := Ascii.eqb c "010"%char.

Fixpoint starts_with (p l : list ascii) : bool :=
  match p, l with
  | [], _ => true
  | a :: p', b :: l' => Ascii.eqb a b && starts_with p' l'
  | _ :: _, [] => false
  end.

(** [(?=.png&amp;h=100&amp;w=100)] *)
Definition lookahead (l : list ascii) : bool :=
  match l with
  | c :: r =>
      negb (is_newline c) && starts_with (Str.chars "png&amp;h=100&amp;w=100") r
  | [] => false
  end.

(** [.+?] followed by the lookahead *)
Fixpoint lazy_plus (l : list ascii) : option (list ascii) :=
  match l with
  | [] => None
  | c :: r =>
      if is_newline c then None
      else if lookahead r then Some [c]
      else cons c <$> lazy_plus r
  end.

Fixpoint search_chars (l : list ascii) : option (list ascii) :=
  match l with
  | [] => None
  | _ :: r =>
      if starts_with (Str.chars "500/") l then
        match lazy_plus (drop 4 l) with
        | Some m => Some m
        | None => search_chars r
        end
      else search_chars r
  end.

(** [re.search(...)], and [.group(0)] of the match when there is one *)
Definition search_logo (s : string) : option string :=
  Str.of_chars <$> search_chars (Str.chars s).

End Re.

(** ** The game clock: [_league_time] and [_calc_overall_time] *)

(** (num_quarters, regulation_time, regular_quarter) *)
Definition _league_time (league : string) : Z * Z * Z :=
  if String.eqb league "nba" then (4, 48, 12) else (2, 40, 20).

Definition _calc_overall_time (seconds minutes quarter : Z) (league : string)
  : result string :=
  let '(num_quarters, regulation_time, regular_quarter) := _league_time league in
  '(quarter_length, previous_time) ←
    (if num_quarters <=? quarter then
       (* We're in overtime. *)
       let quarter_length := 5 in
       let overtimes := quarter - num_quarters in
       previous_time ←
         Timedelta.make (regulation_time + 5 * (overtimes - 1)) 0;
       Ok (quarter_length, previous_time)
     else
       let quarter_length := regular_quarter in
       previous_time ← Timedelta.make (quarter_length * (quarter - 1)) 0;
       Ok (quarter_length, previous_time));
  a ← Timedelta.make quarter_length 0;
  b ← Timedelta.make minutes seconds;
  mins ← Timedelta.sub a b;
  overall ← Timedelta.add mins previous_time;
  Ok (Timedelta.str overall).

(** ** [_play_as_dict] *)

Definition _play_as_dict (away_team : string) (play : row) : result dict :=
  let new_play : dict := ∅ in
  let logo := match find_logo play with Some m => m | None => "None" end in
  logo ← from_option AttributeError (Re.search_logo logo);
  let logo := Str.upper logo in
  if negb (String.eqb logo away_team) then
    let new_play := <["away_play" := VStr EmptyString]> new_play in
    text ← from_option AttributeError (find_game_details play);
    Ok (<["home_play" := VStr text]> new_play)
  else
    text ← from_option AttributeError (find_game_details play);
    let new_play := <["away_play" := VStr text]> new_play in
    Ok (<["home_play" := VStr EmptyString]> new_play).

(** ** [_adjust_time] *)

Definition _adjust_time (time : string) (quarter : Z) (end_of_quarter : bool)
    (league : string) : result (dict * Z * bool) :=
  let new_time := Str.split ":" time in
  minutes ← (s ← from_option IndexError (new_time !! 0%nat); Str.int s);
  seconds ← (s ← from_option IndexError (new_time !! 1%nat); Str.int s);
  let '(quarter, end_of_quarter) :=
    if (minutes =? 0) && negb end_of_quarter then (quarter, true)
    else if end_of_quarter && (1 <? minutes) then (quarter + 1, false)
    else (quarter, end_of_quarter) in
  overall_time ← _calc_overall_time seconds minutes quarter league;
  let time_dict : dict := ∅ in
  let time_dict := <["overall_time" := VStr overall_time]> time_dict in
  let time_dict := <["quarter_time" := VStr time]> time_dict in
  let time_dict := <["quarter" := VInt quarter]> time_dict in
  Ok (time_dict, quarter, end_of_quarter).

(** ** [adjust_game] *)

(** The loop variables of [adjust_game]. *)
Record state : Type := {
  game : list dict;
  quarter : Z;
  end_of_quarter : bool;
}.

#[global] Instance state_eq_dec : EqDecision state.
Proof. solve_decision. Defined.

Definition initial : state :=
  {| game := []; quarter := 1; end_of_quarter := false |}.

(** One iteration of the [for play in plays] loop. *)
Definition adjust_game_body (away_team league : string) (st : state)
    (play : row) : result state :=
  match find_time_stamp play with
  | None => Ok st (* [continue] *)
  | Some time =>
      new_play ← _play_as_dict away_team play;
      '(time_dict, quarter, end_of_quarter) ←
        _adjust_time time (quarter st) (end_of_quarter st) league;
      let new_play := time_dict ∪ new_play in
      new_play ←
        (if find_no_change play then
           match last (game st) with
           | Some last_play =>
               (* Official Play without score (new quarter, etc.) *)
               a ← from_option KeyError (last_play !! "away_score");
               let new_play := <["away_score" := a]> new_play in
               h ← from_option KeyError (last_play !! "home_score");
               Ok (<["home_score" := h]> new_play)
           | None =>
               (* Start of game *)
               let new_play := <["away_score" := VInt 0]> new_play in
               Ok (<["home_score" := VInt 0]> new_play)
           end
         else
           scores ← from_option AttributeError (find_combined_score play);
           match Str.split "-" scores with
           | [away_score; home_score] =>
               a ← Str.int away_score;
               let new_play := <["away_score" := VInt a]> new_play in
               h ← Str.int home_score;
               Ok (<["home_score" := VInt h]> new_play)
           | _ => Raise ValueError
           end);
      Ok {| game := game st ++ [new_play];
            quarter := quarter;
            end_of_quarter := end_of_quarter |}
  end.

Fixpoint adjust_game_loop (away_team league : string) (st : state)
    (plays : list row) : result state :=
  match plays with
  | [] => Ok st
  | play :: rest =>
      st' ← adjust_game_body away_team league st play;
      adjust_game_loop away_team league st' rest
  end.

Definition adjust_game (away_team : string) (plays : list row)
    (league : string) : result (list dict) :=
  st ← adjust_game_loop away_team league initial plays;
  Ok (game st).

(** * The clock rules in the words of the specification *)

Module Spec.

(** Minutes played before period [p] starts. *)
Definition previous_minutes (league : string) (p : Z) : Z :=
  let '(num_regulation_periods, regulation_total_minutes,
        regular_period_minutes) := _league_time league in
  if p <? num_regulation_periods
  then regular_period_minutes * (p - 1)
  else regulation_total_minutes + 5 * ((p - num_regulation_periods) - 1).

Definition period_length (league : string) (p : Z) : Z :=
  let '(num_regulation_periods, _, regular_period_minutes) :=
    _league_time league in
  if p <? num_regulation_periods then regular_period_minutes else 5.

(** [previous + (period_length - remaining)], in seconds. *)
Definition elapsed_seconds (league : string) (p minutes seconds : Z) : Z :=
  60 * previous_minutes league p
  + (60 * period_length league p - (60 * minutes + seconds)).

End Spec.

(** ** Clocks that run down *)

(** The minutes that period [p] lasts on the floor: a regulation period up
    to the last one of regulation, five minutes in overtime. *)
Definition minutes_played (league : string) (p : Z) : Z :=
  let '(num_regulation_periods, _, regular_period_minutes) :=
    _league_time league in
  if p <=? num_regulation_periods then regular_period_minutes else 5.

(** Two successive clocks, as seconds remaining [r1] in period [q1] and
    [r2] in period [q2], that a game can show: the clock runs down inside a
    period, and a new period starts at no more than its length. *)
Definition clocks_consistent (league : string) (q1 r1 q2 r2 : Z) : Prop :=
  (q2 = q1 /\ r2 <= r1) \/
  (q2 <> q1 /\ 0 <= r1 /\ r2 <= 60 * minutes_played league q2).

(** * Views of the code used in the statements *)

(** ** The stages of [_adjust_time] *)

(** [minutes] and [seconds] as [_adjust_time] reads them from the text. *)
Definition parse_clock (time : string) : result (Z * Z) :=
  let new_time := Str.split ":" time in
  minutes ← (s ← from_option IndexError (new_time !! 0%nat); Str.int s);
  seconds ← (s ← from_option IndexError (new_time !! 1%nat); Str.int s);
  Ok (minutes, seconds).

(** The [if]/[elif] of [_adjust_time]. *)
Definition transition (minutes quarter : Z) (end_of_quarter : bool)
  : Z * bool :=
  if (minutes =? 0) && negb end_of_quarter then (quarter, true)
  else if end_of_quarter && (1 <? minutes) then (quarter + 1, false)
  else (quarter, end_of_quarter).

(** The dictionary that [_adjust_time] returns. *)
Definition time_dict_of (overall_time time : string) (quarter : Z) : dict :=
  <["quarter" := VInt quarter]>
    (<["quarter_time" := VStr time]>
       (<["overall_time" := VStr overall_time]> ∅)).

(** ** The branches of [_calc_overall_time]

    Each branch of the [if quarter >= num_quarters], followed by the lines
    that the two share. *)

Definition overtime_branch (seconds minutes quarter : Z) (league : string)
  : result string :=
  let '(num_quarters, regulation_time, regular_quarter) := _league_time league in
  let quarter_length := 5 in
  let overtimes := quarter - num_quarters in
  previous_time ← Timedelta.make (regulation_time + 5 * (overtimes - 1)) 0;
  a ← Timedelta.make quarter_length 0;
  b ← Timedelta.make minutes seconds;
  mins ← Timedelta.sub a b;
  overall ← Timedelta.add mins previous_time;
  Ok (Timedelta.str overall).

Definition regulation_branch (seconds minutes quarter : Z) (league : string)
  : result string :=
  let '(num_quarters, regulation_time, regular_quarter) := _league_time league in
  let quarter_length := regular_quarter in
  previous_time ← Timedelta.make (quarter_length * (quarter - 1)) 0;
  a ← Timedelta.make quarter_length 0;
  b ← Timedelta.make minutes seconds;
  mins ← Timedelta.sub a b;
  overall ← Timedelta.add mins previous_time;
  Ok (Timedelta.str overall).

(** ** The emitted play *)

(** The identifier that [_play_as_dict] reads from the logo cell. *)
Definition logo_id (play : row) : option string :=
  Str.upper <$>
    Re.search_logo (match find_logo play with Some m => m | None => "None" end).

(** The dictionary that [_play_as_dict] returns. *)
Definition text_dict (away_play home_play : string) : dict :=
  <["home_play" := VStr home_play]> (<["away_play" := VStr away_play]> ∅).

(** The play that [adjust_game] appends: the time dictionary merged into
    the text dictionary, then the two scores. *)
Definition emitted (td np : dict) (a h : value) : dict :=
  <["home_score" := h]> (<["away_score" := a]> (td ∪ np)).

(** The same, from the values that determine it. *)
Definition play_of (away_team league : string) (time : string) (q' : Z)
    (minutes seconds : Z) (logo text : string) (a h : value) : dict :=
  emitted
    (time_dict_of
       (Timedelta.str (Spec.elapsed_seconds league q' minutes seconds)) time q')
    (if String.eqb logo away_team then text_dict text EmptyString
     else text_dict EmptyString text)
    a h.

(** The scores that [adjust_game] stores for a row, given the plays emitted
    so far. *)
Definition resolved_scores (g : list dict) (play : row) (a h : value) : Prop :=
  if find_no_change play then
    match last g with
    | Some last_play =>
        last_play !! "away_score" = Some a /\ last_play !! "home_score" = Some h
    | None => a = VInt 0 /\ h = VInt 0
    end
  else
    exists scores away_score home_score za zh,
      find_combined_score play = Some scores /\
      Str.split "-" scores = [away_score; home_score] /\
      Str.int away_score = Ok za /\ Str.int home_score = Ok zh /\
      a = VInt za /\ h = VInt zh.

(** The keys of an emitted play. *)
Definition play_keys : gset string :=
  list_to_set ["overall_time"; "quarter_time"; "quarter"; "away_play";
               "home_play"; "away_score"; "home_score"].

(** ** Reading an emitted play *)

(** The duration a play records, read back from its ['overall_time']. *)
Definition elapsed_of (p : dict) (d : Z) : Prop :=
  p !! "overall_time" = Some (VStr (Timedelta.str d)).

Definition quarter_of (p : dict) (q : Z) : Prop :=
  p !! "quarter" = Some (VInt q).

(** The period and the clock that a play records. *)
Definition clock_of (p : dict) (q minutes seconds : Z) : Prop :=
  exists time,
    p !! "quarter_time" = Some (VStr time) /\
    parse_clock time = Ok (minutes, seconds) /\
    quarter_of p q.

(** The elapsed time of [p] is the one of its period and clock. *)
Definition timed (league : string) (p : dict) : Prop :=
  exists q minutes seconds,
    clock_of p q minutes seconds /\ 1 <= q /\
    elapsed_of p (Spec.elapsed_seconds league q minutes seconds).

(** [p] has the seven keys, and one of its two texts is empty. *)
Definition well_keyed (p : dict) : Prop :=
  dom p = play_keys /\
  exists away_play home_play,
    p !! "away_play" = Some (VStr away_play) /\
    p !! "home_play" = Some (VStr home_play) /\
    (away_play = EmptyString \/ home_play = EmptyString).

(** The elapsed times of [g] never decrease from a play to the next. *)
Definition elapsed_nondecreasing (g : list dict) : Prop :=
  forall (i : nat) p1 p2 d1 d2,
    g !! i = Some p1 -> g !! S i = Some p2 ->
    elapsed_of p1 d1 -> elapsed_of p2 d2 -> d1 <= d2.

(** What holds of the loop variables after any number of rows. *)
Record inv (league : string) (st : state) : Prop := {
  inv_quarter : 1 <= quarter st;
  inv_timed : Forall (timed league) (game st);
  inv_keyed : Forall well_keyed (game st);
  inv_last : forall lp, last (game st) = Some lp -> quarter_of lp (quarter st);
  inv_steps : forall (i : nat) p1 p2 q1 q2,
    game st !! i = Some p1 -> game st !! S i = Some p2 ->
    quarter_of p1 q1 -> quarter_of p2 q2 -> q2 = q1 \/ q2 = q1 + 1;
}.

(** ** Reading the text of a duration *)

(** A character of a printed integer. *)
Definition is_numeric (c : ascii) : bool :=
  Ascii.eqb c "-"%char || bool_decide (is_Some (Str.digit_value c)).

(** A printed integer, read back. *)
Definition read_int (s : string) : option Z :=
  Z.of_int <$> NilZero.int_of_string s.

(** The text before the first colon of [Timedelta.str t]. *)
Definition head_chars (t : Z) : list ascii :=
  let days := t / 86400 in
  ((if days =? 0 then []
    else Str.chars (Str.of_int days)
         ++ " "%char
            :: Str.chars "day"
               ++ Str.chars (if Z.abs days =? 1 then EmptyString else "s")
               ++ Str.chars ", ")
   ++ Str.chars (Str.of_int (t mod 86400 / 60 / 60)))%list.

(** ** Rows for the examples *)

Module Example.

Definition dq : string := String "034"%char EmptyString.

(** The logo cell of a row as the page has it, for a team abbreviation. *)
Definition logo_cell (abbr : string) : string :=
  "<td class=" +:+ dq +:+ "logo" +:+ dq +:+ "><img class=" +:+ dq
  +:+ "team-logo" +:+ dq +:+ " src=" +:+ dq
  +:+ "https://a.espncdn.com/combiner/i?img=/i/teamlogos/nba/500/"
  +:+ abbr +:+ ".png&amp;h=100&amp;w=100" +:+ dq +:+ "/></td>".

(** A row with a clock, a logo, a text and a literal score. *)
Definition scored (time abbr text scores : string) : row :=
  {| find_time_stamp := Some time;
     find_logo := Some (logo_cell abbr);
     find_game_details := Some text;
     find_no_change := false;
     find_combined_score := Some scores |}.

(** A row with a clock, a logo, a text and the no-change marker. *)
Definition unscored (time abbr text : string) : row :=
  {| find_time_stamp := Some time;
     find_logo := Some (logo_cell abbr);
     find_game_details := Some text;
     find_no_change := true;
     find_combined_score := None |}.

(** A row without a clock cell (a header or separator row). *)
Definition header : row :=
  {| find_time_stamp := None;
     find_logo := None;
     find_game_details := None;
     find_no_change := false;
     find_combined_score := None |}.

(** The play emitted for a row, from its fields. *)
Definition play (overall_time time : string) (quarter : Z)
    (away_play home_play : string) (away_score home_score : Z) : dict :=
  emitted (time_dict_of overall_time time quarter)
    (text_dict away_play home_play) (VInt away_score) (VInt home_score).

End Example.

(** * The rest of the module *)

(** ** More of the built-ins *)

Module Py.

(** [s.lower()] on ASCII. *)
Definition lower_char (c : ascii) : ascii :=
  let n := N_of_ascii c in
  if ((65 <=? n) && (n <=? 90))%N then ascii_of_N (n + 32) else c.

Definition lower (s : string) : string :=
  Str.of_chars (map lower_char (Str.chars s)).

(** [sep.join(l)] *)
Fixpoint join (sep : string) (l : list string) : string :=
  match l with
  | [] => EmptyString
  | [s] => s
  | s :: rest => s +:+ sep +:+ join sep rest
  end.

(** [needle in haystack] *)
Fixpoint contains_chars (needle l : list ascii) : bool :=
  Re.starts_with needle l ||
  match l with
  | [] => false
  | _ :: r => contains_chars needle r
  end.

Definition contains (needle haystack : string) : bool :=
  contains_chars (Str.chars needle) (Str.chars haystack).

(** The position that a slice bound [i] denotes in a sequence of length
    [len]: counted from the end when negative, clipped to the sequence. *)
Definition index (len i : Z) : Z :=
  if i <? 0 then Z.max (i + len) 0 else Z.min i len.

(** [s[i:j]] *)
Definition slice (i j : Z) (s : string) : string :=
  let l := Str.chars s in
  let len := Z.of_nat (length l) in
  Str.of_chars (drop (Z.to_nat (index len i)) (take (Z.to_nat (index len j)) l)).

(** [range(n)] *)
Definition range (n : Z) : list Z := seqZ 0 n.

End Py.

(** ** [daterange]

    A [datetime.date] is its proleptic Gregorian ordinal
    ([date.toordinal()]), from 1 to 3652059; [(end - start).days] is the
    difference of the ordinals and [start + datetime.timedelta(n)] is the
    date [n] days later.  The generator is the list of what it yields. *)

Definition min_ordinal : Z := 1.
Definition max_ordinal : Z := 3652059.

Definition daterange (start end_ : Z) : list Z :=
  (fun n => start + n) <$> Py.range (end_ - start).

(** ** [_format_scoreboard_url] *)

(** The [day] argument: a [datetime.date], given by the text that
    [day.strftime('%Y%m%d')] returns, or a string. *)
Inductive day : Type :=
| Date (strftime_Ymd : string)
| Text (s : string).

Definition _format_scoreboard_url (d : day) (league : string) : string :=
  let league := Py.lower league in
  let link := [league +:+ "/scoreboard/_/date/"] in
  let link :=
    match d with
    | Date strftime_Ymd => (link ++ [strftime_Ymd])%list
    | Text s => (link ++ [s])%list
    end in
  let link :=
    if String.eqb league "ncb" then (link ++ ["&confId=50"])%list else link in
  let scoreboard_link :=
    Py.join EmptyString ["http://www.espn.com/"; Py.join EmptyString link] in
  scoreboard_link.

(** ** [scrape_links]

    The function after [urlopen(espn_scoreboard).read().decode('utf-8')]:
    [url] is the text of the page. *)

Definition recap_marker : string := "/nba/recap?gameId=".

Fixpoint scrape_links_loop (url_list : list string) (f2 : list string)
  : list string :=
  match f2 with
  | [] => url_list
  | piece :: rest =>
      if Py.contains recap_marker piece
      then scrape_links_loop (url_list ++ [Py.slice (-10) (-1) piece])%list
             rest
      else scrape_links_loop url_list rest
  end.

Definition scrape_links (url : string) : list string :=
  let f2 := Str.split "," url in
  scrape_links_loop [] f2.

(** ** [parse_plays]

    The function after the page is fetched and parsed: what the calls on
    [soup] return. *)
Record page : Type := {
  (** the rows ([table.findAll('tr')]) of the
      [div] with id ['gamepackage-qtrs-wrap'], [None] when there is no such
      [div] *)
  find_table : option (list row);
  (** the [.text] of the ['team-name'] cells *)
  team_names : list string;
}.

(** The page that [parse_plays] fetches. *)
Definition playbyplay_url (game_id league : string) : string :=
  let league := Py.lower league in
  "http://espn.com/" +:+ league +:+ "/playbyplay?gameId=" +:+ game_id.

Definition parse_plays (soup : page) (league : string)
  : result (string * string * list dict) :=
  let league := Py.lower league in
  let table := find_table soup in
  let title := team_names soup in
  away_team ← from_option IndexError (title !! 0%nat);
  home_team ← from_option IndexError (title !! 1%nat);
  rows ← from_option AttributeError table;
  (* del rows[0] *)
  rows ← match rows with [] => Raise IndexError | _ :: rest => Ok rest end;
  game ← adjust_game away_team rows league;
  Ok (away_team, home_team, game).

(** ** Reading the output *)

(** The clock texts of the rows that have one, in order. *)
Definition time_stamps (plays : list row) : list string :=
  omap find_time_stamp plays.

Definition quarter_time_of (p : dict) (time : string) : Prop :=
  p !! "quarter_time" = Some (VStr time).

(** Both scores of [p] are integers that are not negative. *)
Definition scores_natural (p : dict) : Prop :=
  exists a h, p !! "away_score" = Some (VInt a) /\
              p !! "home_score" = Some (VInt h) /\ 0 <= a /\ 0 <= h.

(** * Properties *)

(** ** Tactics *)

(** Turns the boolean comparisons in the context into propositions. *)
Ltac zbool :=
  repeat match goal with
    | H : (_ <=? _) = true |- _ => apply Z.leb_le in H
    | H : (_ <=? _) = false |- _ => apply Z.leb_gt in H
    | H : (_ <? _) = true |- _ => apply Z.ltb_lt in H
    | H : (_ <? _) = false |- _ => apply Z.ltb_ge in H
    | H : (_ =? _) = true |- _ => apply Z.eqb_eq in H
    | H : (_ =? _) = false |- _ => apply Z.eqb_neq in H
    end.

(** [H : c ∈ l] for a character [c] that the literal text [l] lacks. *)
Ltac not_in_literal H :=
  simpl in H;
  repeat (apply elem_of_cons in H as [H|H]; [discriminate H|]);
  apply elem_of_nil in H.

(** ** The error monad *)

Lemma bind_Ok_inv {A B : Type} (r : result A) (k : A -> result B) (b : B) :
  (r ≫= k) = Ok b -> exists a, r = Ok a /\ k a = Ok b.
Proof. destruct r as [a|e]; [eauto | discriminate]. Qed.

Lemma from_option_Ok_inv {A : Type} (e : exn) (o : option A) (a : A) :
  from_option e o = Ok a -> o = Some a.
Proof. destruct o; simpl; congruence. Qed.

(** [H : (r ≫= k) = Ok b] becomes [Ha : r = Ok a] and [H : k a = Ok b]. *)
Tactic Notation "inv_bind" hyp(H) "as" simple_intropattern(a) ident(Ha) :=
  apply bind_Ok_inv in H; destruct H as (a & Ha & H).

(** ** The library functions on examples *)

Example int_examples :
  Str.int "11" = Ok 11 /\ Str.int " 07 " = Ok 7 /\ Str.int "-3" = Ok (-3) /\
  Str.int "1_000" = Ok 1000 /\ Str.int "" = Raise ValueError /\
  Str.int "1__0" = Raise ValueError /\ Str.int "5.5" = Raise ValueError /\
  Str.int "+ 5" = Raise ValueError.
Proof. compute_done. Qed.

Example split_examples :
  Str.split ":" "11:58" = ["11"; "58"] /\ Str.split ":" "1158" = ["1158"] /\
  Str.split ":" "" = [EmptyString] /\ Str.split "-" "10-8" = ["10"; "8"] /\
  Str.split "-" "-1-2" = [EmptyString; "1"; "2"].
Proof. compute_done. Qed.

Example search_logo_examples :
  Re.search_logo (Example.logo_cell "bos") = Some "bos" /\
  Re.search_logo "None" = None /\
  Re.search_logo "500/.png&amp;h=100&amp;w=100" = None /\
  Re.search_logo "500/a.png&amp;h=100&amp;w=100 500/b.png&amp;h=100&amp;w=100"
  = Some "a" /\
  Str.upper "bos" = "BOS".
Proof. compute_done. Qed.

Example timedelta_str_examples :
  Timedelta.str 0 = "0:00:00" /\ Timedelta.str 722 = "0:12:02" /\
  Timedelta.str (-70) = "-1 day, 23:58:50" /\
  Timedelta.str (2 * 86400 + 3661) = "2 days, 1:01:01" /\
  Timedelta.make (999999999 * 1440 + 1440) 0 = Raise OverflowError.
Proof. compute_done. Qed.

(** ** Durations in range *)

Lemma check_Ok (t : Z) :
  - (86400 * Timedelta.max_days) <= t < 86400 * (Timedelta.max_days + 1) ->
  Timedelta.check t = Ok t.
Proof.
  intros Ht. unfold Timedelta.check, Timedelta.max_days in *.
  destruct (Z.leb_spec (Z.abs (t / 86400)) 999999999) as [_|Hlt]; [done|].
  exfalso. revert Hlt. Z.div_mod_to_equations. lia.
Qed.

Lemma check_Ok_inv (t r : Z) : Timedelta.check t = Ok r -> r = t.
Proof. unfold Timedelta.check. case_match; congruence. Qed.

(** ** [_league_time] and [_calc_overall_time] *)

Lemma league_time_cases (league : string) :
  _league_time league = (4, 48, 12) \/ _league_time league = (2, 40, 20).
Proof. unfold _league_time. case_match; auto. Qed.

Lemma calc_overall_time_inv (seconds minutes p : Z) (league t : string) :
  _calc_overall_time seconds minutes p league = Ok t ->
  t = Timedelta.str (Spec.elapsed_seconds league p minutes seconds).
Proof.
  unfold _calc_overall_time, Spec.elapsed_seconds, Spec.previous_minutes,
    Spec.period_length.
  destruct (league_time_cases league) as [-> | ->]; intros H;
    inv_bind H as [ql prev] Hp;
    (destruct (_ <=? p) eqn:Hle; destruct (p <? _) eqn:Hlt; zbool; try lia);
    inv_bind Hp as prev' Hprev; injection Hp as <- <-;
    inv_bind H as a Ha; inv_bind H as b Hb; inv_bind H as mins Hmins;
    inv_bind H as overall Hov; injection H as <-;
    unfold Timedelta.make, Timedelta.sub, Timedelta.add in *;
    repeat match goal with
      | E : Timedelta.check _ = Ok _ |- _ => apply check_Ok_inv in E; subst
      end;
    f_equal; lia.
Qed.

Lemma calc_overall_time_total (seconds minutes p : Z) (league : string) :
  1 <= p <= 10 ^ 9 -> Z.abs minutes <= 10 ^ 9 -> Z.abs seconds <= 10 ^ 9 ->
  _calc_overall_time seconds minutes p league
  = Ok (Timedelta.str (Spec.elapsed_seconds league p minutes seconds)).
Proof.
  intros Hp Hm Hs.
  assert (H9 : 10 ^ 9 = 1000000000) by reflexivity. rewrite H9 in *.
  destruct (_calc_overall_time seconds minutes p league) as [t|e] eqn:E.
  { f_equal. by apply calc_overall_time_inv. }
  exfalso. revert E. unfold _calc_overall_time.
  destruct (league_time_cases league) as [-> | ->];
    (destruct (_ <=? p) eqn:Hle; zbool);
    unfold Timedelta.make, Timedelta.sub, Timedelta.add;
    repeat (rewrite check_Ok by (unfold Timedelta.max_days; lia); simpl);
    discriminate.
Qed.

Lemma calc_overall_time_branches (seconds minutes quarter : Z)
    (league : string) :
  _calc_overall_time seconds minutes quarter league
  = if (_league_time league).1.1 <=? quarter
    then overtime_branch seconds minutes quarter league
    else regulation_branch seconds minutes quarter league.
Proof.
  unfold _calc_overall_time, overtime_branch, regulation_branch.
  destruct (league_time_cases league) as [-> | ->]; simpl;
    destruct (_ <=? quarter); by destruct (Timedelta.make _ 0).
Qed.

(** The two clocks that the specification lists among its examples. *)
Example start_of_game : _calc_overall_time 0 12 1 "nba" = Ok "0:00:00".
Proof. reflexivity. Qed.

Example start_of_overtime : _calc_overall_time 0 5 5 "nba" = Ok "0:48:00".
Proof. reflexivity. Qed.

(** ** The text of a duration determines the duration *)

Lemma chars_app (a b : string) :
  Str.chars (a +:+ b) = (Str.chars a ++ Str.chars b)%list.
Proof. induction a as [|c a IH]; simpl; [done | by rewrite <- IH]. Qed.

(** Two texts that agree up to their first separator agree before it and
    after it. *)
Lemma app_sep_inj (c : ascii) (a a' r r' : list ascii) :
  c ∉ a -> c ∉ a' -> (a ++ c :: r = a' ++ c :: r')%list ->
  a = a' /\ r = r'.
Proof.
  revert a'. induction a as [|x a IH]; intros [|x' a'] Ha Ha' E;
    simpl in E.
  - by injection E as ->.
  - injection E as -> E. exfalso. apply Ha'. left.
  - injection E as -> E. exfalso. apply Ha. left.
  - injection E as -> E.
    apply not_elem_of_cons in Ha as [_ Ha].
    apply not_elem_of_cons in Ha' as [_ Ha'].
    destruct (IH _ Ha Ha' E) as [-> ->]. done.
Qed.

Lemma uint_numeric (d : Decimal.uint) :
  Forall (fun c => is_numeric c = true)
    (Str.chars (NilEmpty.string_of_uint d)).
Proof. induction d; simpl; constructor; done. Qed.

Lemma of_int_numeric (z : Z) :
  Forall (fun c => is_numeric c = true) (Str.chars (Str.of_int z)).
Proof.
  unfold Str.of_int.
  destruct (Z.to_int z) as [d|d]; simpl; [|constructor; [done|]];
    (destruct d; [by repeat constructor | apply (uint_numeric (_ _))..]).
Qed.

Lemma of_int02_numeric (z : Z) :
  Forall (fun c => is_numeric c = true) (Str.chars (Str.of_int02 z)).
Proof.
  unfold Str.of_int02. case_match; [|apply of_int_numeric].
  simpl. constructor; [done | apply of_int_numeric].
Qed.

Lemma not_numeric_not_in (c : ascii) (l : list ascii) :
  is_numeric c = false -> Forall (fun c => is_numeric c = true) l -> c ∉ l.
Proof.
  intros Hc Hl Hin. rewrite Forall_forall in Hl.
  apply Hl in Hin. congruence.
Qed.

Lemma of_int_not_in (c : ascii) (z : Z) :
  is_numeric c = false -> c ∉ Str.chars (Str.of_int z).
Proof. intros Hc. apply not_numeric_not_in, of_int_numeric. exact Hc. Qed.

Lemma of_int02_not_in (c : ascii) (z : Z) :
  is_numeric c = false -> c ∉ Str.chars (Str.of_int02 z).
Proof. intros Hc. apply not_numeric_not_in, of_int02_numeric. exact Hc. Qed.

Lemma read_of_int (z : Z) : read_int (Str.of_int z) = Some z.
Proof.
  unfold read_int, Str.of_int. rewrite NilZero.isi.
  - simpl. by rewrite DecimalZ.of_to.
  - destruct z; simpl; try discriminate.
    intros [= E]. by apply DecimalPos.Unsigned.to_uint_nonnil in E.
  - destruct z; simpl; try discriminate.
    intros [= E]. by apply DecimalPos.Unsigned.to_uint_nonnil in E.
Qed.

Lemma read_of_int02 (z : Z) :
  0 <= z < 60 -> read_int (Str.of_int02 z) = Some z.
Proof.
  intros Hz. unfold Str.of_int02.
  destruct ((0 <=? z) && (z <? 10)) eqn:E; [|apply read_of_int].
  apply andb_prop in E as [_ E]. zbool.
  assert (Hc : z = 0 \/ z = 1 \/ z = 2 \/ z = 3 \/ z = 4 \/ z = 5 \/ z = 6
               \/ z = 7 \/ z = 8 \/ z = 9) by lia.
  repeat destruct Hc as [-> | Hc]; try subst z; reflexivity.
Qed.

Lemma of_int_chars_inj (a b : Z) :
  Str.chars (Str.of_int a) = Str.chars (Str.of_int b) -> a = b.
Proof.
  intros E. apply (f_equal Str.of_chars) in E.
  unfold Str.of_chars, Str.chars in E.
  rewrite !string_of_list_ascii_of_string in E.
  apply (f_equal read_int) in E. rewrite !read_of_int in E. congruence.
Qed.

Lemma of_int02_chars_inj (a b : Z) :
  0 <= a < 60 -> 0 <= b < 60 ->
  Str.chars (Str.of_int02 a) = Str.chars (Str.of_int02 b) -> a = b.
Proof.
  intros Ha Hb E. apply (f_equal Str.of_chars) in E.
  unfold Str.of_chars, Str.chars in E.
  rewrite !string_of_list_ascii_of_string in E.
  apply (f_equal read_int) in E. rewrite !read_of_int02 in E by done.
  congruence.
Qed.

Lemma str_chars (t : Z) :
  Str.chars (Timedelta.str t)
  = (head_chars t
     ++ ":"%char
        :: Str.chars (Str.of_int02 (t mod 86400 / 60 mod 60))
           ++ ":"%char :: Str.chars (Str.of_int02 (t mod 86400 mod 60)))%list.
Proof.
  unfold Timedelta.str, head_chars. destruct (t / 86400 =? 0).
  - by rewrite !chars_app.
  - rewrite !chars_app, <- !app_assoc. simpl. by rewrite <- !app_assoc.
Qed.

Lemma head_chars_no_colon (t : Z) : ":"%char ∉ head_chars t.
Proof.
  unfold head_chars. rewrite elem_of_app. intros [H|H].
  - destruct (t / 86400 =? 0); [by apply elem_of_nil in H|].
    rewrite elem_of_app, elem_of_cons, !elem_of_app in H.
    destruct H as [H|[H|[H|[H|H]]]]; try discriminate.
    + by apply of_int_not_in in H.
    + by not_in_literal H.
    + destruct (Z.abs _ =? 1); by not_in_literal H.
    + by not_in_literal H.
  - by apply of_int_not_in in H.
Qed.

Lemma head_chars_inj (t t' : Z) :
  head_chars t = head_chars t' ->
  t / 86400 = t' / 86400 /\ t mod 86400 / 60 / 60 = t' mod 86400 / 60 / 60.
Proof.
  assert (Hsp : forall z, " "%char ∉ Str.chars (Str.of_int z)).
  { intros z. by apply of_int_not_in. }
  unfold head_chars.
  destruct (t / 86400 =? 0) eqn:Ed, (t' / 86400 =? 0) eqn:Ed'; zbool;
    simpl; intros E.
  - split; [congruence | by apply of_int_chars_inj].
  - exfalso. apply (Hsp (t mod 86400 / 60 / 60)). rewrite E.
    rewrite <- app_assoc. simpl. rewrite elem_of_app, elem_of_cons. auto.
  - exfalso. apply (Hsp (t' mod 86400 / 60 / 60)). rewrite <- E.
    rewrite <- app_assoc. simpl. rewrite elem_of_app, elem_of_cons. auto.
  - rewrite <- !app_assoc in E. simpl in E.
    apply app_sep_inj in E as [E1 E2]; [|apply Hsp..].
    apply of_int_chars_inj in E1. split; [done|]. rewrite E1 in E2.
    injection E2 as E2. apply app_inv_head in E2. by apply of_int_chars_inj.
Qed.

Lemma timedelta_str_inj (t t' : Z) :
  Timedelta.str t = Timedelta.str t' -> t = t'.
Proof.
  intros E. apply (f_equal Str.chars) in E. rewrite !str_chars in E.
  apply app_sep_inj in E as [Eh E]; [|apply head_chars_no_colon..].
  apply app_sep_inj in E as [Em Es]; [|by apply of_int02_not_in..].
  apply head_chars_inj in Eh as [Ed Eh].
  apply of_int02_chars_inj in Em; [|apply Z.mod_pos_bound; lia..].
  apply of_int02_chars_inj in Es; [|apply Z.mod_pos_bound; lia..].
  revert Ed Eh Em Es. Z.div_mod_to_equations. lia.
Qed.

Lemma elapsed_of_inj (p : dict) (d d' : Z) :
  elapsed_of p d -> elapsed_of p d' -> d = d'.
Proof.
  unfold elapsed_of. intros H H'. rewrite H in H'.
  injection H' as E. by apply timedelta_str_inj.
Qed.

(** ** [_adjust_time] *)

Lemma adjust_time_eq (time : string) (q : Z) (e : bool) (league : string) :
  _adjust_time time q e league =
  ('(minutes, seconds) ← parse_clock time;
   let '(q', e') := transition minutes q e in
   overall_time ← _calc_overall_time seconds minutes q' league;
   Ok (time_dict_of overall_time time q', q', e')).
Proof.
  unfold _adjust_time, parse_clock, transition.
  destruct (from_option IndexError (_ !! 0%nat)) as [s0|]; [simpl|done].
  destruct (Str.int s0) as [minutes|]; [simpl|done].
  destruct (from_option IndexError (_ !! 1%nat)) as [s1|]; [simpl|done].
  destruct (Str.int s1) as [seconds|]; [simpl|done].
  by repeat case_match.
Qed.

Lemma adjust_time_inv (time : string) (q : Z) (e : bool) (league : string)
    (td : dict) (q' : Z) (e' : bool) :
  _adjust_time time q e league = Ok (td, q', e') ->
  exists minutes seconds,
    parse_clock time = Ok (minutes, seconds) /\
    transition minutes q e = (q', e') /\
    td = time_dict_of
           (Timedelta.str (Spec.elapsed_seconds league q' minutes seconds))
           time q'.
Proof.
  rewrite adjust_time_eq. intros H. inv_bind H as [minutes seconds] Hc.
  destruct (transition minutes q e) as [q1 e1] eqn:Et. inv_bind H as ot Hot.
  injection H as <- <- <-. apply calc_overall_time_inv in Hot as ->.
  by exists minutes, seconds.
Qed.

Lemma transition_cases (minutes q : Z) (e : bool) (q' : Z) (e' : bool) :
  transition minutes q e = (q', e') ->
  (minutes = 0 /\ e = false /\ q' = q /\ e' = true) \/
  (1 < minutes /\ e = true /\ q' = q + 1 /\ e' = false) \/
  (~ (minutes = 0 /\ e = false) /\ ~ (1 < minutes /\ e = true) /\
   q' = q /\ e' = e).
Proof.
  unfold transition.
  destruct (minutes =? 0) eqn:H0, (1 <? minutes) eqn:H1, e;
    simpl; intros [= <- <-]; zbool; intuition (try lia; try congruence).
Qed.

(** ** [_play_as_dict] *)

Lemma play_as_dict_inv (away_team : string) (play : row) (np : dict) :
  _play_as_dict away_team play = Ok np ->
  exists logo text,
    logo_id play = Some logo /\ find_game_details play = Some text /\
    np = if String.eqb logo away_team then text_dict text EmptyString
         else text_dict EmptyString text.
Proof.
  unfold _play_as_dict, logo_id. intros H. inv_bind H as m Hm.
  apply from_option_Ok_inv in Hm as ->. simpl.
  destruct (String.eqb (Str.upper m) away_team) eqn:E; simpl in H;
    inv_bind H as text Ht; apply from_option_Ok_inv in Ht;
    injection H as <-; exists (Str.upper m), text; by rewrite E.
Qed.

Lemma play_as_dict_Ok (away_team : string) (play : row) (logo text : string) :
  logo_id play = Some logo -> find_game_details play = Some text ->
  _play_as_dict away_team play
  = Ok (if String.eqb logo away_team then text_dict text EmptyString
        else text_dict EmptyString text).
Proof.
  unfold _play_as_dict, logo_id. intros Hl ->.
  destruct (Re.search_logo _) as [m|]; [|done]. injection Hl as <-. simpl.
  by destruct (String.eqb (Str.upper m) away_team).
Qed.

(** ** The emitted play *)

Lemma play_of_fields (away_team league time : string) (q' minutes seconds : Z)
    (logo text : string) (a h : value) :
  let p := play_of away_team league time q' minutes seconds logo text a h in
  p !! "overall_time"
    = Some (VStr (Timedelta.str
                    (Spec.elapsed_seconds league q' minutes seconds))) /\
  p !! "quarter_time" = Some (VStr time) /\
  p !! "quarter" = Some (VInt q') /\
  p !! "away_play"
    = Some (VStr (if String.eqb logo away_team then text else EmptyString)) /\
  p !! "home_play"
    = Some (VStr (if String.eqb logo away_team then EmptyString else text)) /\
  p !! "away_score" = Some a /\
  p !! "home_score" = Some h /\
  dom p = play_keys.
Proof.
  unfold play_of, emitted, time_dict_of, text_dict, play_keys.
  destruct (String.eqb logo away_team); repeat split;
    try (by simplify_map_eq); rewrite !dom_insert_L, dom_union_L,
    !dom_insert_L, !dom_empty_L; simpl; set_solver.
Qed.

Lemma play_of_well_keyed (away_team league time : string)
    (q' minutes seconds : Z) (logo text : string) (a h : value) :
  well_keyed (play_of away_team league time q' minutes seconds logo text a h).
Proof.
  pose proof (play_of_fields away_team league time q' minutes seconds logo
                text a h) as (_ & _ & _ & Fa & Fh & _ & _ & Fd).
  split; [exact Fd|]. eexists _, _. split; [exact Fa|]. split; [exact Fh|].
  destruct (String.eqb logo away_team); auto.
Qed.

(** ** One iteration of the loop *)

Section Loop.

Context (away_team league : string).

Lemma adjust_game_body_inv (st st' : state) (play : row) (time : string) :
  find_time_stamp play = Some time ->
  adjust_game_body away_team league st play = Ok st' ->
  exists np td a h,
    _play_as_dict away_team play = Ok np /\
    _adjust_time time (quarter st) (end_of_quarter st) league
      = Ok (td, quarter st', end_of_quarter st') /\
    resolved_scores (game st) play a h /\
    game st' = (game st ++ [emitted td np a h])%list.
Proof.
  unfold adjust_game_body, resolved_scores. intros -> H.
  inv_bind H as np Hnp. inv_bind H as [[td q'] e'] Htd.
  inv_bind H as p Hp. injection H as <-. simpl.
  destruct (find_no_change play).
  - destruct (last (game st)) as [lp|].
    + inv_bind Hp as a Ha. apply from_option_Ok_inv in Ha.
      inv_bind Hp as h Hh. apply from_option_Ok_inv in Hh. injection Hp as <-.
      by exists np, td, a, h.
    + injection Hp as <-. by exists np, td, (VInt 0), (VInt 0).
  - inv_bind Hp as scores Hs. apply from_option_Ok_inv in Hs.
    destruct (Str.split "-" scores) as [|ta [|th [|]]] eqn:Es; try discriminate.
    inv_bind Hp as za Hza. inv_bind Hp as zh Hzh. injection Hp as <-.
    exists np, td, (VInt za), (VInt zh). repeat split; eauto 12.
Qed.

(** What a row with a clock does to the loop variables. *)
Lemma adjust_game_body_step (st st' : state) (play : row) (time : string) :
  find_time_stamp play = Some time ->
  adjust_game_body away_team league st play = Ok st' ->
  exists minutes seconds logo text a h,
    parse_clock time = Ok (minutes, seconds) /\
    transition minutes (quarter st) (end_of_quarter st)
      = (quarter st', end_of_quarter st') /\
    logo_id play = Some logo /\
    find_game_details play = Some text /\
    resolved_scores (game st) play a h /\
    game st' = (game st ++ [play_of away_team league time (quarter st')
                              minutes seconds logo text a h])%list.
Proof.
  intros Ht H.
  destruct (adjust_game_body_inv _ _ _ _ Ht H)
    as (np & td & a & h & Hnp & Htd & Hs & Hg).
  apply play_as_dict_inv in Hnp as (logo & text & Hl & Hx & ->).
  apply adjust_time_inv in Htd as (minutes & seconds & Hc & Htr & ->).
  by exists minutes, seconds, logo, text, a, h.
Qed.

Lemma adjust_game_body_skip (st : state) (play : row) :
  find_time_stamp play = None ->
  adjust_game_body away_team league st play = Ok st.
Proof. unfold adjust_game_body. by intros ->. Qed.

(** ** The loop *)

Lemma adjust_game_loop_app (st : state) (l1 l2 : list row) :
  adjust_game_loop away_team league st (l1 ++ l2)
  = (adjust_game_loop away_team league st l1
     ≫= fun st' => adjust_game_loop away_team league st' l2).
Proof.
  revert st. induction l1 as [|play l1 IH]; intros st; [done|]. simpl.
  destruct (adjust_game_body away_team league st play); [apply IH | done].
Qed.

Lemma adjust_game_snoc_inv (plays : list row) (play : row) (g' : list dict) :
  adjust_game away_team (plays ++ [play]) league = Ok g' ->
  exists st st',
    adjust_game_loop away_team league initial plays = Ok st /\
    adjust_game away_team plays league = Ok (game st) /\
    adjust_game_body away_team league st play = Ok st' /\
    g' = game st'.
Proof.
  unfold adjust_game. rewrite adjust_game_loop_app. intros H.
  inv_bind H as st2 H2. injection H as <-.
  inv_bind H2 as st H1. simpl in H2. inv_bind H2 as st' Hb. injection H2 as <-.
  exists st, st'. by rewrite H1.
Qed.

Lemma adjust_game_loop_quarter (plays : list row) (st st' : state) :
  adjust_game_loop away_team league st plays = Ok st' ->
  quarter st <= quarter st'.
Proof.
  revert st. induction plays as [|play plays IH]; intros st H; simpl in H.
  - injection H as <-. lia.
  - inv_bind H as st1 Hb. apply IH in H.
    destruct (find_time_stamp play) as [time|] eqn:Et.
    + destruct (adjust_game_body_step _ _ _ _ Et Hb)
        as (m & s & _ & _ & _ & _ & _ & Htr & _).
      apply transition_cases in Htr. lia.
    + rewrite adjust_game_body_skip in Hb by done. injection Hb as <-. lia.
Qed.

(** The loop only appends: the plays emitted for the first rows of a
    sequence stay as they are when the rows after them are processed. *)
Lemma adjust_game_loop_prefix (plays : list row) (st st' : state) :
  adjust_game_loop away_team league st plays = Ok st' ->
  game st `prefix_of` game st'.
Proof.
  revert st. induction plays as [|play plays IH]; intros st H; simpl in H.
  - by injection H as <-.
  - inv_bind H as st1 Hb. apply IH in H. etrans; [|exact H].
    destruct (find_time_stamp play) as [time|] eqn:Et.
    + destruct (adjust_game_body_step _ _ _ _ Et Hb)
        as (m & s & lg & tx & a & h & _ & _ & _ & _ & _ & ->).
      by apply prefix_app_r.
    + rewrite adjust_game_body_skip in Hb by done. by injection Hb as <-.
Qed.

Lemma adjust_game_prefix (l1 l2 : list row) (g : list dict) :
  adjust_game away_team (l1 ++ l2) league = Ok g ->
  exists g1, adjust_game away_team l1 league = Ok g1 /\ g1 `prefix_of` g.
Proof.
  unfold adjust_game. rewrite adjust_game_loop_app. intros H.
  inv_bind H as st2 H2. injection H as <-. inv_bind H2 as st1 H1.
  exists (game st1). rewrite H1. split; [done|].
  by eapply adjust_game_loop_prefix.
Qed.

(** ** What holds of the plays emitted so far *)

Lemma inv_initial : inv league initial.
Proof. split; simpl; [lia | constructor | constructor | done | done]. Qed.

Lemma inv_body (st st' : state) (play : row) :
  inv league st ->
  adjust_game_body away_team league st play = Ok st' ->
  inv league st'.
Proof.
  intros [Hq Ht Hk Hl Hs] Hb.
  destruct (find_time_stamp play) as [time|] eqn:Et;
    [|rewrite adjust_game_body_skip in Hb by done; by injection Hb as <-].
  destruct (adjust_game_body_step _ _ _ _ Et Hb)
    as (m & s & logo & text & a & h & Hc & Htr & _ & _ & _ & Hg).
  pose proof (play_of_fields away_team league time (quarter st') m s logo text
                a h) as (Fo & Ft & Fq & _).
  assert (Hq' : quarter st' = quarter st \/ quarter st' = quarter st + 1)
    by (apply transition_cases in Htr; lia).
  split; rewrite ?Hg.
  - lia.
  - apply Forall_app. split; [done|]. constructor; [|done].
    exists (quarter st'), m, s. repeat split; [by exists time | lia | done].
  - apply Forall_app. split; [done|]. constructor; [|done].
    apply play_of_well_keyed.
  - rewrite last_snoc. by intros lp [= <-].
  - intros i p1 p2 q1 q2 H1 H2 Q1 Q2.
    destruct (decide (S i < length (game st))%nat) as [Hlt|Hge].
    + rewrite lookup_app_l in H1 by lia. rewrite lookup_app_l in H2 by lia.
      eauto.
    + destruct (decide (S i = length (game st))) as [Heq|Hne].
      * rewrite lookup_app_l in H1 by lia.
        rewrite lookup_app_r, Heq, Nat.sub_diag in H2 by lia.
        injection H2 as <-.
        assert (Hlast : last (game st) = Some p1).
        { rewrite last_lookup, <- Heq. done. }
        apply Hl in Hlast. unfold quarter_of in *. simplify_eq. lia.
      * apply lookup_lt_Some in H2. rewrite length_app in H2. simpl in H2. lia.
Qed.

Lemma inv_loop (plays : list row) (st st' : state) :
  inv league st ->
  adjust_game_loop away_team league st plays = Ok st' ->
  inv league st'.
Proof.
  revert st. induction plays as [|play plays IH]; intros st Hi H; simpl in H.
  - by injection H as <-.
  - inv_bind H as st1 Hb. eauto using inv_body.
Qed.

Lemma adjust_game_inv (plays : list row) (g : list dict) :
  adjust_game away_team plays league = Ok g ->
  exists st,
    adjust_game_loop away_team league initial plays = Ok st /\
    inv league st /\ game st = g.
Proof.
  unfold adjust_game. intros H. inv_bind H as st Hl. injection H as <-.
  eauto using inv_loop, inv_initial.
Qed.

(** The periods recorded in the emitted plays never decrease. *)
Lemma emitted_quarters_sorted (plays : list row) (g : list dict) (i j : nat)
    (p1 p2 : dict) (q1 q2 : Z) :
  adjust_game away_team plays league = Ok g ->
  (i <= j)%nat -> g !! i = Some p1 -> g !! j = Some p2 ->
  quarter_of p1 q1 -> quarter_of p2 q2 -> q1 <= q2.
Proof.
  intros Hg Hij H1 H2 Q1 Q2.
  apply adjust_game_inv in Hg as (st & _ & [_ Ht _ _ Hs] & <-).
  revert p2 q2 H2 Q2. induction Hij as [|j Hij IH]; intros p2 q2 H2 Q2.
  - unfold quarter_of in *. simplify_eq. lia.
  - destruct (game st !! j) as [pj|] eqn:Hj;
      [|apply lookup_ge_None in Hj; apply lookup_lt_Some in H2; lia].
    pose proof (Forall_lookup_1 _ _ _ _ Ht Hj)
      as (qj & mj & sj & (tj & _ & _ & Qj) & _ & _).
    specialize (IH _ _ eq_refl Qj).
    destruct (Hs _ _ _ _ _ Hj H2 Qj Q2); lia.
Qed.

(** Every emitted play has the seven keys, none of them ['official_play'],
    and one of its two texts is empty. *)
Lemma emitted_plays_keyed (plays : list row) (g : list dict) (p : dict) :
  adjust_game away_team plays league = Ok g -> p ∈ g ->
  well_keyed p /\ p !! "official_play" = None.
Proof.
  intros Hg Hp.
  apply adjust_game_inv in Hg as (st & _ & [_ _ Hk _ _] & <-).
  rewrite Forall_forall in Hk. specialize (Hk _ Hp). split; [done|].
  destruct Hk as [Hd _]. apply not_elem_of_dom. rewrite Hd.
  unfold play_keys. by compute_done.
Qed.

End Loop.

(** * The claims *)

(** C1. For every league and every period [p >= 1], the elapsed time that
    [_calc_overall_time] computes for remaining [minutes] and [seconds] is
    [previous + (period_length - remaining)], where below the number of
    regulation periods [previous] is [regular_period_minutes * (p - 1)] and
    [period_length] is [regular_period_minutes], and from that number on
    [previous] is [regulation_total_minutes + 5 * ((p - num) - 1)] and
    [period_length] is 5.  Whenever a value is returned it is the text of
    that duration; and a value is returned for every period and clock up to
    a billion in size (only beyond the 999999999 days of a [timedelta] does
    Python raise [OverflowError]). *)
Theorem calc_overall_time_formula (league : string) (p minutes seconds : Z) :
  1 <= p ->
  (forall t, _calc_overall_time seconds minutes p league = Ok t ->
             t = Timedelta.str
                   (60 * Spec.previous_minutes league p
                    + (60 * Spec.period_length league p
                       - (60 * minutes + seconds)))) /\
  (p <= 10 ^ 9 -> Z.abs minutes <= 10 ^ 9 -> Z.abs seconds <= 10 ^ 9 ->
   _calc_overall_time seconds minutes p league
   = Ok (Timedelta.str
           (60 * Spec.previous_minutes league p
            + (60 * Spec.period_length league p
               - (60 * minutes + seconds))))).
Proof.
  intros Hp. split.
  - intros t. apply calc_overall_time_inv.
  - intros Hp' Hm Hs. by apply calc_overall_time_total.
Qed.

Lemma calc_overall_time_formula_witness :
  1 <= 2 /\ _calc_overall_time 58 11 2 "nba" = Ok "0:12:02".
Proof.
  split; [lia|].
  apply (calc_overall_time_formula "nba" 2 11 58); [lia | | |]; compute_done.
Defined.

(** C2. At any row of any row sequence ([st] the loop variables before the
    row, [rest] the rows after it): a row whose minutes are 0 while
    [end_of_quarter] is false sets the flag and keeps the period; a row
    whose minutes exceed 1 while the flag is set adds exactly 1 to the
    period and clears the flag; a row whose minutes are 1 changes neither;
    and the period never decreases, over the row and over all the rows that
    follow. *)
Theorem period_state_machine (away_team league : string) (st st' st'' : state)
    (play : row) (rest : list row) (time : string) (minutes seconds : Z) :
  find_time_stamp play = Some time ->
  parse_clock time = Ok (minutes, seconds) ->
  adjust_game_body away_team league st play = Ok st' ->
  adjust_game_loop away_team league st' rest = Ok st'' ->
  (minutes = 0 -> end_of_quarter st = false ->
   end_of_quarter st' = true /\ quarter st' = quarter st) /\
  (1 < minutes -> end_of_quarter st = true ->
   quarter st' = quarter st + 1 /\ end_of_quarter st' = false) /\
  (minutes = 1 ->
   end_of_quarter st' = end_of_quarter st /\ quarter st' = quarter st) /\
  quarter st <= quarter st' <= quarter st''.
Proof.
  intros Ht Hc Hb Hl. apply adjust_game_loop_quarter in Hl.
  destruct (adjust_game_body_step _ _ _ _ _ _ Ht Hb)
    as (m & s & _ & _ & _ & _ & Hc' & Htr & _).
  rewrite Hc in Hc'. injection Hc' as <- <-.
  apply transition_cases in Htr.
  destruct Htr as [Hx|[Hx|Hx]]; destruct Hx as (? & ? & ? & ?);
    repeat split; intros; try congruence; try lia; tauto.
Qed.

Lemma period_state_machine_witness :
  let st := {| game := []; quarter := 1; end_of_quarter := true |} in
  let play := Example.scored "11:58" "bos" "Jump shot" "2-0" in
  let p := Example.play "0:12:02" "11:58" 2 "Jump shot" EmptyString 2 0 in
  let st' := {| game := [p]; quarter := 2; end_of_quarter := false |} in
  let rest := [Example.unscored "0:00" "bos" "End of the 2nd Quarter";
               Example.unscored "12:00" "lal" "Start of the 3rd Quarter"] in
  let st'' :=
    {| game := [p;
                Example.play "0:24:00" "0:00" 2 "End of the 2nd Quarter"
                  EmptyString 2 0;
                Example.play "0:24:00" "12:00" 3 EmptyString
                  "Start of the 3rd Quarter" 2 0];
       quarter := 3; end_of_quarter := false |} in
  adjust_game_body "BOS" "nba" st play = Ok st' /\
  adjust_game_loop "BOS" "nba" st' rest = Ok st'' /\
  (quarter st' = quarter st + 1 /\ end_of_quarter st' = false) /\
  quarter st <= quarter st' <= quarter st''.
Proof.
  intros st play p st' rest st''.
  assert (Hb : adjust_game_body "BOS" "nba" st play = Ok st') by compute_done.
  assert (Hl : adjust_game_loop "BOS" "nba" st' rest = Ok st'')
    by compute_done.
  destruct (period_state_machine "BOS" "nba" st st' st'' play rest "11:58"
              11 58 eq_refl eq_refl Hb Hl) as (_ & H2 & _ & H4).
  split; [exact Hb|]. split; [exact Hl|]. split; [|exact H4].
  apply H2; [lia | reflexivity].
Defined.

(** C3, as the code has it.  A clock whose minutes or seconds lie outside
    [0, period_length) and [0, 60) is not rejected: for every clock text
    that parses to integers [minutes] and [seconds] (up to a billion in
    size) [_adjust_time] returns, and the elapsed time that it records is
    [previous + (period_length - remaining)] computed from those values as
    they are.  The clock [5:75] in period 1 of an nba game gives
    [0:05:45]. *)
Theorem clock_range_not_checked (time : string) (q : Z) (e : bool)
    (league : string) (minutes seconds : Z) :
  parse_clock time = Ok (minutes, seconds) ->
  1 <= q < 10 ^ 9 -> Z.abs minutes <= 10 ^ 9 -> Z.abs seconds <= 10 ^ 9 ->
  exists q' e',
    transition minutes q e = (q', e') /\
    _adjust_time time q e league
    = Ok (time_dict_of
            (Timedelta.str (Spec.elapsed_seconds league q' minutes seconds))
            time q', q', e').
Proof.
  intros Hc Hq Hm Hs. rewrite adjust_time_eq, Hc. simpl.
  destruct (transition minutes q e) as [q' e'] eqn:Htr.
  exists q', e'. split; [done|].
  rewrite calc_overall_time_total; [done | | done | done].
  apply transition_cases in Htr. lia.
Qed.

Lemma clock_range_not_checked_witness :
  parse_clock "5:75" = Ok (5, 75) /\
  _adjust_time "5:75" 1 false "nba"
  = Ok (time_dict_of "0:05:45" "5:75" 1, 1, false).
Proof.
  split; [reflexivity|].
  destruct (clock_range_not_checked "5:75" 1 false "nba" 5 75 eq_refl)
    as (q' & e' & Htr & H); [lia | compute_done | compute_done |].
  injection Htr as <- <-. exact H.
Defined.

(** C3, refuted as stated: the row with clock [5:75], whose seconds are
    outside [0, 60), is normalised without an error, to the elapsed time
    0:05:45. *)
Lemma malformed_clock_counterexample :
  parse_clock "5:75" = Ok (5, 75) /\ ~ (0 <= 75 < 60) /\
  adjust_game "BOS" [Example.unscored "5:75" "bos" "Jump ball"] "nba"
  = Ok [Example.play "0:05:45" "5:75" 1 "Jump ball" EmptyString 0 0].
Proof. compute_done. Qed.

(** C4, as the code has it.  A row whose logo identifier differs from the
    away team's is attributed to the home side, whether or not the
    identifier is the home team's: [_play_as_dict] returns the detail text
    under ['home_play'] and the empty text under ['away_play'], and the play
    that [adjust_game] emits for the row carries them. *)
Theorem unknown_logo_goes_home (away_team league : string) (play : row)
    (logo text : string) :
  logo_id play = Some logo -> logo <> away_team ->
  find_game_details play = Some text ->
  _play_as_dict away_team play = Ok (text_dict EmptyString text) /\
  forall st st' time,
    find_time_stamp play = Some time ->
    adjust_game_body away_team league st play = Ok st' ->
    exists p, game st' = (game st ++ [p])%list /\
              p !! "home_play" = Some (VStr text) /\
              p !! "away_play" = Some (VStr EmptyString).
Proof.
  intros Hl Hne Hx.
  apply String.eqb_neq in Hne.
  split; [by rewrite (play_as_dict_Ok _ _ _ _ Hl Hx), Hne|].
  intros st st' time Ht Hb.
  destruct (adjust_game_body_step _ _ _ _ _ _ Ht Hb)
    as (m & s & logo' & text' & a & h & _ & _ & Hl' & Hx' & _ & Hg).
  simplify_eq. eexists. split; [done|].
  pose proof (play_of_fields away_team league time (quarter st') m s logo text
                a h) as (_ & _ & _ & Fa & Fh & _).
  rewrite Hne in Fa, Fh. done.
Qed.

Lemma unknown_logo_goes_home_witness :
  logo_id (Example.unscored "11:40" "xyz" "Foul") = Some "XYZ" /\
  "XYZ" <> "BOS" /\
  _play_as_dict "BOS" (Example.unscored "11:40" "xyz" "Foul")
  = Ok (text_dict EmptyString "Foul").
Proof.
  split; [reflexivity|]. split; [discriminate|].
  apply (unknown_logo_goes_home "BOS" "nba" _ "XYZ" "Foul");
    [reflexivity | discriminate | reflexivity].
Defined.

(** C4, refuted as stated: with away team BOS and home team LAL, the row
    whose logo is XYZ is normalised without an error, and its text is put
    on the home side. *)
Lemma unattributable_team_counterexample :
  logo_id (Example.unscored "11:40" "xyz" "Foul") = Some "XYZ" /\
  "XYZ" <> "BOS" /\ "XYZ" <> "LAL" /\
  adjust_game "BOS" [Example.unscored "11:40" "xyz" "Foul"] "nba"
  = Ok [Example.play "0:00:20" "11:40" 1 EmptyString "Foul" 0 0].
Proof. compute_done. Qed.

(** C5. For every row sequence [plays] and every following row [play] with
    a clock, when the whole normalises: the new play is appended to the
    plays of [plays]; if the score cell of the row is a literal [a-h] the
    new play has [away_score = a] and [home_score = h]; if the row is
    marked no-change and no play was emitted before it, both scores are 0;
    if it is marked no-change and a play was emitted before it, the scores
    are those of the last emitted play. *)
Theorem score_resolution (away_team league : string) (plays : list row)
    (play : row) (time : string) (g' : list dict) :
  find_time_stamp play = Some time ->
  adjust_game away_team (plays ++ [play]) league = Ok g' ->
  exists g p,
    adjust_game away_team plays league = Ok g /\
    g' = (g ++ [p])%list /\
    if find_no_change play then
      match last g with
      | None =>
          p !! "away_score" = Some (VInt 0) /\
          p !! "home_score" = Some (VInt 0)
      | Some last_play =>
          is_Some (last_play !! "away_score") /\
          is_Some (last_play !! "home_score") /\
          p !! "away_score" = last_play !! "away_score" /\
          p !! "home_score" = last_play !! "home_score"
      end
    else
      exists scores away_score home_score a h,
        find_combined_score play = Some scores /\
        Str.split "-" scores = [away_score; home_score] /\
        Str.int away_score = Ok a /\ Str.int home_score = Ok h /\
        p !! "away_score" = Some (VInt a) /\
        p !! "home_score" = Some (VInt h).
Proof.
  intros Ht H.
  apply adjust_game_snoc_inv in H as (st & st' & _ & Hg & Hb & ->).
  destruct (adjust_game_body_step _ _ _ _ _ _ Ht Hb)
    as (m & s & logo & text & a & h & _ & _ & _ & _ & Hs & Hg').
  pose proof (play_of_fields away_team league time (quarter st') m s logo text
                a h) as (_ & _ & _ & _ & _ & Fa & Fh & _).
  eexists _, _. split; [exact Hg|]. split; [exact Hg'|].
  unfold resolved_scores in Hs. destruct (find_no_change play).
  - destruct (last (game st)) as [lp|].
    + destruct Hs as [Ha Hh]. rewrite Ha, Hh. eauto.
    + destruct Hs as [-> ->]. done.
  - destruct Hs as (sc & ta & th & za & zh & ? & ? & ? & ? & -> & ->).
    by exists sc, ta, th, za, zh.
Qed.

Lemma score_resolution_witness :
  let plays := [Example.unscored "12:00" "bos" "Start of the 1st Quarter";
                Example.scored "11:40" "lal" "Layup" "0-2"] in
  let play := Example.unscored "11:20" "bos" "Timeout" in
  let g' :=
    [Example.play "0:00:00" "12:00" 1 "Start of the 1st Quarter" EmptyString
       0 0;
     Example.play "0:00:20" "11:40" 1 EmptyString "Layup" 0 2;
     Example.play "0:00:40" "11:20" 1 "Timeout" EmptyString 0 2] in
  find_time_stamp play = Some "11:20" /\
  adjust_game "BOS" (plays ++ [play]) "nba" = Ok g' /\
  exists g p,
    adjust_game "BOS" plays "nba" = Ok g /\ g' = (g ++ [p])%list /\
    match last g with
    | None =>
        p !! "away_score" = Some (VInt 0) /\ p !! "home_score" = Some (VInt 0)
    | Some last_play =>
        is_Some (last_play !! "away_score") /\
        is_Some (last_play !! "home_score") /\
        p !! "away_score" = last_play !! "away_score" /\
        p !! "home_score" = last_play !! "home_score"
    end.
Proof.
  intros plays play g'.
  assert (E : adjust_game "BOS" (plays ++ [play]) "nba" = Ok g')
    by compute_done.
  split; [reflexivity|]. split; [exact E|].
  exact (score_resolution "BOS" "nba" plays play "11:20" g' eq_refl E).
Defined.

(** C6. In an nba game in period 1, a row with clock [0:00] followed by a
    row with clock [11:58]: the first sets [end_of_quarter] and stays in
    period 1, the second moves to period 2 before its elapsed time is
    computed, and that elapsed time is 12:02, the text of 12 minutes and 2
    seconds, which is 12:00 + (12:00 - 11:58). *)
Theorem period_advance_example :
  _adjust_time "0:00" 1 false "nba"
    = Ok (time_dict_of "0:12:00" "0:00" 1, 1, true) /\
  _adjust_time "11:58" 1 true "nba"
    = Ok (time_dict_of "0:12:02" "11:58" 2, 2, false) /\
  Timedelta.str (60 * 12 + 2) = "0:12:02" /\
  60 * 12 + (60 * 12 - (60 * 11 + 58)) = 60 * 12 + 2 /\
  adjust_game "BOS"
    [Example.unscored "0:00" "bos" "End of the 1st Quarter";
     Example.unscored "11:58" "lal" "Jump shot"] "nba"
  = Ok [Example.play "0:12:00" "0:00" 1 "End of the 1st Quarter" EmptyString
          0 0;
        Example.play "0:12:02" "11:58" 2 EmptyString "Jump shot" 0 0].
Proof. compute_done. Qed.

(** The period and the clock of a play are determined by the play. *)
Lemma clock_of_inj (p : dict) (q m s q' m' s' : Z) :
  clock_of p q m s -> clock_of p q' m' s' -> q = q' /\ m = m' /\ s = s'.
Proof.
  intros (t & Ht & Hc & Hq) (t' & Ht' & Hc' & Hq').
  unfold quarter_of in *. simplify_eq.
  rewrite Hc in Hc'. by injection Hc' as <- <-.
Qed.

(** C7, as the code has it.  In a normalised sequence the elapsed time does
    not decrease from an emitted play to the next whenever their two
    clocks are consistent: either both plays are in the same period and the
    later clock shows no more time remaining than the earlier, or the later
    play is in another period, the earlier clock is not negative and the
    later clock shows no more than the length of its period
    ([regular_period_minutes] up to the last regulation period, 5 minutes
    afterwards). *)
Theorem elapsed_nondecreasing_when_consistent (away_team league : string)
    (plays : list row) (g : list dict) (i : nat) (p1 p2 : dict)
    (q1 m1 s1 q2 m2 s2 d1 d2 : Z) :
  adjust_game away_team plays league = Ok g ->
  g !! i = Some p1 -> g !! S i = Some p2 ->
  clock_of p1 q1 m1 s1 -> clock_of p2 q2 m2 s2 ->
  clocks_consistent league q1 (60 * m1 + s1) q2 (60 * m2 + s2) ->
  elapsed_of p1 d1 -> elapsed_of p2 d2 ->
  d1 <= d2.
Proof.
  intros Hg H1 H2 C1 C2 Hc E1 E2.
  apply adjust_game_inv in Hg as (st & _ & [_ Ht _ _ Hs] & <-).
  pose proof (Forall_lookup_1 _ _ _ _ Ht H1) as (q & m & s & C1' & Hq1 & E1').
  destruct (clock_of_inj _ _ _ _ _ _ _ C1' C1) as (-> & -> & ->).
  pose proof (Forall_lookup_1 _ _ _ _ Ht H2) as (q & m & s & C2' & Hq2 & E2').
  destruct (clock_of_inj _ _ _ _ _ _ _ C2' C2) as (-> & -> & ->).
  rewrite (elapsed_of_inj _ _ _ E1 E1'), (elapsed_of_inj _ _ _ E2 E2').
  destruct C1 as (_ & _ & _ & Q1), C2 as (_ & _ & _ & Q2).
  pose proof (Hs _ _ _ _ _ H1 H2 Q1 Q2) as Hstep.
  unfold clocks_consistent, minutes_played in Hc.
  unfold Spec.elapsed_seconds, Spec.previous_minutes, Spec.period_length.
  destruct (league_time_cases league) as [E|E]; rewrite E in Hc |- *;
    cbv beta iota in Hc |- *; repeat case_match; zbool; lia.
Qed.

Lemma elapsed_nondecreasing_when_consistent_witness :
  let rows := [Example.unscored "0:00" "bos" "End of the 1st Quarter";
               Example.unscored "11:58" "lal" "Jump shot"] in
  let p1 := Example.play "0:12:00" "0:00" 1 "End of the 1st Quarter"
              EmptyString 0 0 in
  let p2 := Example.play "0:12:02" "11:58" 2 EmptyString "Jump shot" 0 0 in
  adjust_game "BOS" rows "nba" = Ok [p1; p2] /\
  clocks_consistent "nba" 1 (60 * 0 + 0) 2 (60 * 11 + 58) /\
  elapsed_of p1 720 /\ elapsed_of p2 722 /\ 720 <= 722.
Proof.
  intros rows p1 p2.
  assert (Hg : adjust_game "BOS" rows "nba" = Ok [p1; p2]) by compute_done.
  assert (Hc : clocks_consistent "nba" 1 (60 * 0 + 0) 2 (60 * 11 + 58)).
  { right. split; [lia|]. split; [lia | compute_done]. }
  assert (E1 : elapsed_of p1 720) by (unfold elapsed_of; compute_done).
  assert (E2 : elapsed_of p2 722) by (unfold elapsed_of; compute_done).
  repeat split; try assumption.
  apply (elapsed_nondecreasing_when_consistent "BOS" "nba" rows [p1; p2] 0
           p1 p2 1 0 0 2 11 58 720 722 Hg eq_refl eq_refl);
    [exists "0:00"; unfold quarter_of; compute_done
    | exists "11:58"; unfold quarter_of; compute_done
    | exact Hc | exact E1 | exact E2].
Defined.

(** C7, refuted as stated: a period that closes without a row at [0:XX]
    is not counted.  After a row at [1:05] the row at [11:40] of the next
    period is still taken to be in period 1: the two rows normalise without
    an error, to the elapsed times 0:10:55 and then 0:00:20. *)
Lemma elapsed_monotone_counterexample :
  exists g,
    adjust_game "BOS"
      [Example.scored "1:05" "bos" "Layup" "20-18";
       Example.scored "11:40" "lal" "Jump shot" "20-20"] "nba" = Ok g /\
    ~ elapsed_nondecreasing g.
Proof.
  exists [Example.play "0:10:55" "1:05" 1 "Layup" EmptyString 20 18;
          Example.play "0:00:20" "11:40" 1 EmptyString "Jump shot" 20 20].
  split; [compute_done|]. intros H.
  assert (Hle : 655 <= 20); [|lia].
  apply (H 0%nat _ _ 655 20 eq_refl eq_refl); unfold elapsed_of;
    compute_done.
Qed.

(** C8, evaluated where the code departs from it.  The first row of a game,
    marked no-change and with an empty detail text, is emitted with both
    texts empty and without any ['official_play'] key: the play has the
    seven keys of [play_keys] and no other. *)
Theorem official_play_missing :
  let play := Example.unscored "12:00" "bos" EmptyString in
  let p := Example.play "0:00:00" "12:00" 1 EmptyString EmptyString 0 0 in
  find_no_change play = true /\
  adjust_game "BOS" [play] "nba" = Ok [p] /\
  p !! "away_play" = Some (VStr EmptyString) /\
  p !! "home_play" = Some (VStr EmptyString) /\
  p !! "official_play" = None /\
  dom p = play_keys.
Proof. cbv zeta. compute_done. Qed.

(** C9. A row without a clock cell emits nothing and leaves the loop
    variables as they are - the emitted plays with their scores, the
    period, the end-of-period flag - so that normalising a row sequence
    with such a row in it gives what normalising the sequence without the
    row gives. *)
Theorem absent_clock_row_skipped (away_team league : string) (play : row)
    (st : state) (before after : list row) :
  find_time_stamp play = None ->
  adjust_game_body away_team league st play = Ok st /\
  adjust_game away_team (before ++ play :: after) league
  = adjust_game away_team (before ++ after) league.
Proof.
  intros Ht. split; [by apply adjust_game_body_skip|].
  unfold adjust_game. rewrite !adjust_game_loop_app.
  destruct (adjust_game_loop away_team league initial before) as [st1|];
    [simpl|done].
  by rewrite adjust_game_body_skip.
Qed.

Lemma absent_clock_row_skipped_witness :
  let st := {| game := [Example.play "0:12:00" "0:00" 1 "End" EmptyString 7 9];
               quarter := 1; end_of_quarter := true |} in
  find_time_stamp Example.header = None /\
  adjust_game_body "BOS" "nba" st Example.header = Ok st /\
  adjust_game "BOS"
    ([Example.unscored "0:00" "bos" "End"] ++
     Example.header :: [Example.unscored "11:58" "lal" "Jump shot"]) "nba"
  = adjust_game "BOS"
      ([Example.unscored "0:00" "bos" "End"] ++
       [Example.unscored "11:58" "lal" "Jump shot"]) "nba".
Proof.
  intros st. split; [reflexivity|].
  exact (absent_clock_row_skipped "BOS" "nba" Example.header st
           [Example.unscored "0:00" "bos" "End"]
           [Example.unscored "11:58" "lal" "Jump shot"] eq_refl).
Defined.

(** C10. For every league and every remaining time with
    [0 <= minutes < regular_quarter] and [0 <= seconds < 60], the period
    numbered [num_quarters], the last of regulation, is routed through the
    overtime branch (quarter length 5, previous time
    [regulation_time - 5]), and that branch returns what the regulation
    branch would return there: the text of [regulation_time] minus the
    remaining time, which is
    [regular_quarter * (num_quarters - 1) + (regular_quarter - remaining)]. *)
Theorem final_regulation_period (league : string)
    (num_quarters regulation_time regular_quarter minutes seconds : Z) :
  _league_time league = (num_quarters, regulation_time, regular_quarter) ->
  0 <= minutes < regular_quarter -> 0 <= seconds < 60 ->
  _calc_overall_time seconds minutes num_quarters league
  = overtime_branch seconds minutes num_quarters league /\
  overtime_branch seconds minutes num_quarters league
  = regulation_branch seconds minutes num_quarters league /\
  regulation_branch seconds minutes num_quarters league
  = Ok (Timedelta.str (60 * regulation_time - (60 * minutes + seconds))) /\
  60 * (regular_quarter * (num_quarters - 1))
  + (60 * regular_quarter - (60 * minutes + seconds))
  = 60 * regulation_time - (60 * minutes + seconds).
Proof.
  intros Hl Hm Hs.
  rewrite calc_overall_time_branches. unfold overtime_branch, regulation_branch.
  rewrite Hl. simpl. rewrite Z.leb_refl.
  destruct (league_time_cases league) as [E|E]; rewrite E in Hl;
    injection Hl as <- <- <-;
    unfold Timedelta.make, Timedelta.sub, Timedelta.add;
    repeat (rewrite check_Ok by (unfold Timedelta.max_days; lia); simpl);
    repeat split; try (do 2 f_equal); lia.
Qed.

Lemma final_regulation_period_witness :
  _league_time "nba" = (4, 48, 12) /\ 0 <= 3 < 12 /\ 0 <= 20 < 60 /\
  _calc_overall_time 20 3 4 "nba" = overtime_branch 20 3 4 "nba" /\
  overtime_branch 20 3 4 "nba" = regulation_branch 20 3 4 "nba" /\
  regulation_branch 20 3 4 "nba" = Ok "0:44:40".
Proof.
  split; [reflexivity|]. split; [lia|]. split; [lia|].
  destruct (final_regulation_period "nba" 4 48 12 3 20 eq_refl)
    as (H1 & H2 & H3 & _); [lia | lia |].
  split; [exact H1|]. split; [exact H2 | exact H3].
Defined.

(** * Further properties of the normalisation *)

Lemma bind_Raise_inv {A B : Type} (r : result A) (k : A -> result B) (x : exn) :
  (r ≫= k) = Raise x -> r = Raise x \/ exists a, r = Ok a /\ k a = Raise x.
Proof. destruct r as [a|e]; simpl; [eauto | intros [= ->]; auto]. Qed.

(** [H : (r ≫= k) = Raise x] becomes [H : r = Raise x] in a first goal and
    [H : k a = Raise x] in a second. *)
Tactic Notation "inv_raise" hyp(H) "as" simple_intropattern(a) :=
  apply bind_Raise_inv in H; destruct H as [H|(a & _ & H)].

Lemma from_option_Raise_inv {A : Type} (e x : exn) (o : option A) :
  from_option e o = Raise x -> x = e /\ o = None.
Proof. destruct o; simpl; [discriminate | by intros [= ->]]. Qed.

(** ** One play for each row with a clock *)

Lemma adjust_game_loop_time_stamps (away_team league : string)
    (plays : list row) (st st' : state) :
  adjust_game_loop away_team league st plays = Ok st' ->
  exists new,
    game st' = (game st ++ new)%list /\
    Forall2 quarter_time_of new (time_stamps plays).
Proof.
  revert st. induction plays as [|play plays IH]; intros st H; simpl in H.
  - injection H as <-. exists []. by rewrite app_nil_r.
  - inv_bind H as st1 Hb. apply IH in H as (new & Hg & Hn).
    unfold time_stamps in *. simpl.
    destruct (find_time_stamp play) as [time|] eqn:Et; simpl.
    + destruct (adjust_game_body_step _ _ _ _ _ _ Et Hb)
        as (m & s & lg & tx & a & h & _ & _ & _ & _ & _ & Hg1).
      eexists (_ :: new). rewrite Hg, Hg1, <- app_assoc. split; [done|].
      constructor; [|done]. apply play_of_fields.
    + rewrite adjust_game_body_skip in Hb by done. injection Hb as <-. eauto.
Qed.

(** X1. When a row sequence normalises, the output has exactly one play
    for each row that has a clock cell, in the order of the rows, and the
    ['quarter_time'] of each play is the clock text of its row, unchanged. *)
Theorem plays_follow_rows (away_team league : string) (plays : list row)
    (g : list dict) :
  adjust_game away_team plays league = Ok g ->
  Forall2 quarter_time_of g (time_stamps plays) /\
  length g = length (time_stamps plays).
Proof.
  unfold adjust_game. intros H. inv_bind H as st Hl. injection H as <-.
  apply adjust_game_loop_time_stamps in Hl as (new & Hg & Hn).
  simpl in Hg. subst new. split; [done | by eapply Forall2_length].
Qed.

Lemma plays_follow_rows_witness :
  let rows := [Example.unscored "12:00" "bos" "Start";
               Example.header;
               Example.scored "11:40" "lal" "Layup" "0-2"] in
  let g := [Example.play "0:00:00" "12:00" 1 "Start" EmptyString 0 0;
            Example.play "0:00:20" "11:40" 1 EmptyString "Layup" 0 2] in
  adjust_game "BOS" rows "nba" = Ok g /\
  Forall2 quarter_time_of g ["12:00"; "11:40"] /\ length g = 2%nat.
Proof.
  intros rows g.
  assert (E : adjust_game "BOS" rows "nba" = Ok g) by compute_done.
  split; [exact E|]. exact (plays_follow_rows "BOS" "nba" rows g E).
Defined.

(** ** The exceptions *)

Lemma int_Raise (s : string) (x : exn) : Str.int s = Raise x -> x = ValueError.
Proof.
  unfold Str.int. intros HR. repeat case_match;
    by (apply from_option_Raise_inv in HR; destruct HR as [-> _]).
Qed.

Lemma check_Raise (t : Z) (x : exn) :
  Timedelta.check t = Raise x -> x = OverflowError.
Proof. unfold Timedelta.check. case_match; congruence. Qed.

Lemma calc_overall_time_Raise (seconds minutes q : Z) (league : string)
    (x : exn) :
  _calc_overall_time seconds minutes q league = Raise x -> x = OverflowError.
Proof.
  rewrite calc_overall_time_branches.
  unfold overtime_branch, regulation_branch, Timedelta.make, Timedelta.sub,
    Timedelta.add.
  destruct (_league_time league) as [[nq rt] rq]. simpl.
  destruct (nq <=? q); intros H;
    repeat (inv_raise H as ?;
            [by apply check_Raise in H|]);
    discriminate.
Qed.

Lemma parse_clock_Raise (time : string) (x : exn) :
  parse_clock time = Raise x -> x = ValueError \/ x = IndexError.
Proof.
  unfold parse_clock. intros H.
  inv_raise H as minutes.
  - inv_raise H as s.
    + apply from_option_Raise_inv in H. destruct H as [-> _]. auto.
    + apply int_Raise in H. auto.
  - inv_raise H as seconds; [|discriminate].
    inv_raise H as s.
    + apply from_option_Raise_inv in H. destruct H as [-> _]. auto.
    + apply int_Raise in H. auto.
Qed.

Lemma adjust_time_Raise (time : string) (q : Z) (e : bool) (league : string)
    (x : exn) :
  _adjust_time time q e league = Raise x ->
  x = ValueError \/ x = IndexError \/ x = OverflowError.
Proof.
  rewrite adjust_time_eq. intros H.
  inv_raise H as [minutes seconds].
  - apply parse_clock_Raise in H. tauto.
  - destruct (transition minutes q e) as [q' e'].
    inv_raise H as ?; [|discriminate].
    apply calc_overall_time_Raise in H. auto.
Qed.

Lemma play_as_dict_Raise (away_team : string) (play : row)
    (x : exn) :
  _play_as_dict away_team play = Raise x -> x = AttributeError.
Proof.
  unfold _play_as_dict. intros H.
  inv_raise H as m.
  - by (apply from_option_Raise_inv in H; destruct H as [-> _]).
  - destruct (negb _);
      inv_raise H as ?; try discriminate;
      by (apply from_option_Raise_inv in H; destruct H as [-> _]).
Qed.


Lemma adjust_game_body_Raise (away_team league : string) (st : state)
    (play : row) (x : exn) :
  inv league st ->
  adjust_game_body away_team league st play = Raise x ->
  x = AttributeError \/ x = ValueError \/ x = IndexError \/ x = OverflowError.
Proof.
  intros [_ _ Hk _ _] H. unfold adjust_game_body in H.
  destruct (find_time_stamp play) as [time|]; [|discriminate].
  inv_raise H as np.
  { apply play_as_dict_Raise in H. auto. }
  inv_raise H as [[td q'] e'].
  { apply adjust_time_Raise in H. tauto. }
  inv_raise H as ?; [|discriminate].
  destruct (find_no_change play).
  - destruct (last (game st)) as [lp|] eqn:El; [|discriminate].
    assert (Hd : dom lp = play_keys).
    { apply last_Some in El as [l' El]. rewrite El in Hk.
      apply Forall_app in Hk as [_ Hk]. by inversion Hk as [|? ? [Hd _] _]. }
    assert (Ha : is_Some (lp !! "away_score")).
    { apply elem_of_dom. rewrite Hd. unfold play_keys. compute_done. }
    assert (Hh : is_Some (lp !! "home_score")).
    { apply elem_of_dom. rewrite Hd. unfold play_keys. compute_done. }
    destruct Ha as [a Ha], Hh as [h Hh]. rewrite Ha, Hh in H. discriminate.
  - inv_raise H as scores.
    { apply from_option_Raise_inv in H. destruct H as [-> _]. auto. }
    destruct (Str.split "-" scores) as [|ta [|th [|]]];
      try (injection H as <-; auto).
    inv_raise H as ?;
      [apply int_Raise in H; auto|].
    inv_raise H as ?;
      [apply int_Raise in H; auto | discriminate].
Qed.



(** X4. A row that has a clock but no match of the logo pattern - an
    official row without a team logo, or a row without a logo cell - makes
    the whole normalisation raise [AttributeError], whatever rows follow
    it, when the rows before it normalise. *)
Theorem row_without_logo_raises (away_team league : string)
    (before after : list row) (play : row) (time : string) (g : list dict) :
  adjust_game away_team before league = Ok g ->
  find_time_stamp play = Some time ->
  logo_id play = None ->
  adjust_game away_team (before ++ play :: after) league
  = Raise AttributeError.
Proof.
  unfold adjust_game. intros Hg Ht Hl. inv_bind Hg as st Hst.
  rewrite adjust_game_loop_app, Hst. simpl.
  assert (Hb : adjust_game_body away_team league st play
               = Raise AttributeError).
  { unfold adjust_game_body, _play_as_dict. rewrite Ht.
    unfold logo_id in Hl. by destruct (Re.search_logo _). }
  by rewrite Hb.
Qed.

Lemma row_without_logo_raises_witness :
  let timeout :=
    {| find_time_stamp := Some "5:00";
       find_logo := Some "<td class=logo></td>";
       find_game_details := Some "Official timeout";
       find_no_change := true;
       find_combined_score := None |} in
  adjust_game "BOS" [Example.scored "11:40" "lal" "Layup" "0-2"] "nba"
  = Ok [Example.play "0:00:20" "11:40" 1 EmptyString "Layup" 0 2] /\
  logo_id timeout = None /\
  adjust_game "BOS"
    ([Example.scored "11:40" "lal" "Layup" "0-2"] ++
     timeout :: [Example.scored "4:40" "bos" "Dunk" "2-2"]) "nba"
  = Raise AttributeError.
Proof.
  intros timeout.
  assert (E : adjust_game "BOS" [Example.scored "11:40" "lal" "Layup" "0-2"]
                "nba"
              = Ok [Example.play "0:00:20" "11:40" 1 EmptyString "Layup" 0 2])
    by compute_done.
  split; [exact E|]. split; [reflexivity|].
  exact (row_without_logo_raises "BOS" "nba" _ _ timeout "5:00" _ E eq_refl
           eq_refl).
Defined.

(** ** Clock texts *)

Lemma split_chars_no_sep (sep : ascii) (cur l : list ascii) :
  sep ∉ l -> Str.split_chars sep cur l = [Str.of_chars (rev cur ++ l)].
Proof.
  revert cur. induction l as [|c l IH]; intros cur Hn; simpl.
  - by rewrite app_nil_r.
  - apply not_elem_of_cons in Hn as [Hc Hn].
    destruct (Ascii.eqb_spec c sep) as [->|_]; [done|].
    rewrite IH by done. simpl. by rewrite <- app_assoc.
Qed.

Lemma of_chars_chars (s : string) : Str.of_chars (Str.chars s) = s.
Proof. apply string_of_list_ascii_of_string. Qed.

Lemma chars_of_chars (l : list ascii) : Str.chars (Str.of_chars l) = l.
Proof. apply list_ascii_of_string_of_list_ascii. Qed.

Lemma split_no_sep (sep : ascii) (s : string) :
  sep ∉ Str.chars s -> Str.split sep s = [s].
Proof.
  intros Hn. unfold Str.split. rewrite split_chars_no_sep by done.
  simpl. by rewrite of_chars_chars.
Qed.



(** ** Properties of every emitted play *)

(** A property of plays that each new play has, given that the plays before
    it have it, holds of all the plays that the loop emits. *)
Lemma adjust_game_loop_Forall (away_team league : string) (P : dict -> Prop) :
  (forall g play time q' minutes seconds logo text a h,
      Forall P g -> find_time_stamp play = Some time ->
      logo_id play = Some logo -> resolved_scores g play a h ->
      P (play_of away_team league time q' minutes seconds logo text a h)) ->
  forall plays st st',
    adjust_game_loop away_team league st plays = Ok st' ->
    Forall P (game st) -> Forall P (game st').
Proof.
  intros HP plays. induction plays as [|play plays IH]; intros st st' H Hg;
    simpl in H.
  - by injection H as <-.
  - inv_bind H as st1 Hb. apply (IH _ _ H).
    destruct (find_time_stamp play) as [time|] eqn:Et.
    + destruct (adjust_game_body_step _ _ _ _ _ _ Et Hb)
        as (m & s & lg & tx & a & h & _ & _ & Hl & _ & Hs & ->).
      apply Forall_app. split; [done|]. constructor; [|done]. eauto.
    + rewrite adjust_game_body_skip in Hb by done. by injection Hb as <-.
Qed.

Lemma adjust_game_Forall (away_team league : string) (P : dict -> Prop) :
  (forall g play time q' minutes seconds logo text a h,
      Forall P g -> find_time_stamp play = Some time ->
      logo_id play = Some logo -> resolved_scores g play a h ->
      P (play_of away_team league time q' minutes seconds logo text a h)) ->
  forall plays g, adjust_game away_team plays league = Ok g -> Forall P g.
Proof.
  intros HP plays g H. unfold adjust_game in H. inv_bind H as st Hl.
  injection H as <-.
  eapply adjust_game_loop_Forall; [exact HP | exact Hl | constructor].
Qed.

(** *** Scores *)

Lemma digit_value_nonneg (c : ascii) (d : Z) :
  Str.digit_value c = Some d -> 0 <= d.
Proof.
  unfold Str.digit_value. case_match eqn:E; [|discriminate].
  intros [= <-]. apply andb_prop in E as [E _]. zbool. lia.
Qed.

Lemma digits_nonneg (l : list ascii) (acc : Z) (seen : bool) (z : Z) :
  0 <= acc -> Str.digits acc seen l = Some z -> 0 <= z.
Proof.
  revert acc seen. induction l as [|c l IH]; intros acc seen Ha; simpl.
  - destruct seen; [by intros [= <-] | discriminate].
  - destruct (Str.digit_value c) as [d|] eqn:Ed.
    + apply digit_value_nonneg in Ed. apply IH. lia.
    + destruct (Ascii.eqb c "_"); [|discriminate].
      destruct seen; [by apply IH | discriminate].
Qed.

Lemma elem_of_rev {A : Type} (x : A) (l : list A) : x ∈ rev l <-> x ∈ l.
Proof. rewrite !list_elem_of_In. symmetry. apply in_rev. Qed.

Lemma lstrip_elem (x : ascii) (l : list ascii) : x ∈ Str.lstrip l -> x ∈ l.
Proof.
  induction l as [|c l IH]; simpl; [done|].
  destruct (Str.is_space c); [|done]. intros H. right. auto.
Qed.

Lemma strip_elem (x : ascii) (l : list ascii) : x ∈ Str.strip l -> x ∈ l.
Proof.
  unfold Str.strip. rewrite elem_of_rev. intros H.
  apply lstrip_elem in H. rewrite elem_of_rev in H.
  by apply lstrip_elem.
Qed.

(** An integer text without a minus sign is not negative. *)
Lemma int_nonneg (s : string) (z : Z) :
  "-"%char ∉ Str.chars s -> Str.int s = Ok z -> 0 <= z.
Proof.
  unfold Str.int. intros Hn H.
  destruct (Str.strip (Str.chars s)) as [|c r] eqn:Es.
  - apply from_option_Ok_inv in H. by eapply digits_nonneg in H.
  - assert (Hc : c <> "-"%char).
    { intros ->. apply Hn, strip_elem. rewrite Es. left. }
    assert (Hd : from_option ValueError (Str.digits 0 false (c :: r)) = Ok z
                 \/ exists r', from_option ValueError (Str.digits 0 false r')
                               = Ok z).
    { destruct c as [[] [] [] [] [] [] [] []]; eauto; congruence. }
    destruct Hd as [Hd|[r' Hd]]; apply from_option_Ok_inv in Hd;
      by eapply digits_nonneg in Hd.
Qed.

Lemma split_chars_pieces (sep : ascii) (l cur : list ascii) :
  sep ∉ cur ->
  Forall (fun p => sep ∉ Str.chars p) (Str.split_chars sep cur l).
Proof.
  revert cur. induction l as [|c l IH]; intros cur Hc; simpl.
  - constructor; [|constructor]. rewrite chars_of_chars.
    by rewrite elem_of_rev.
  - destruct (Ascii.eqb_spec c sep) as [->|Hne].
    + constructor.
      * rewrite chars_of_chars. by rewrite elem_of_rev.
      * apply IH. apply not_elem_of_nil.
    + apply IH. apply not_elem_of_cons. split; [congruence | done].
Qed.

Lemma split_pieces (sep : ascii) (s : string) :
  Forall (fun p => sep ∉ Str.chars p) (Str.split sep s).
Proof. apply split_chars_pieces, not_elem_of_nil. Qed.

(** X6. In every emitted play both scores are integers that are not
    negative: a literal score is split at its dashes before its pieces are
    read, so that no piece has a minus sign; the first no-change row gets
    0 and 0; and a later no-change row repeats the scores of the play
    before it. *)
Theorem scores_never_negative (away_team league : string) (plays : list row)
    (g : list dict) :
  adjust_game away_team plays league = Ok g -> Forall scores_natural g.
Proof.
  apply adjust_game_Forall.
  intros g0 play time q' m s lg tx a h Hg _ _ Hs.
  pose proof (play_of_fields away_team league time q' m s lg tx a h)
    as (_ & _ & _ & _ & _ & Fa & Fh & _).
  unfold scores_natural. rewrite Fa, Fh.
  unfold resolved_scores in Hs. destruct (find_no_change play).
  - destruct (last g0) as [lp|] eqn:El.
    + apply last_Some in El as [l' ->]. apply Forall_app in Hg as [_ Hg].
      inversion Hg as [|? ? (a0 & h0 & Ha0 & Hh0 & ? & ?) _]; subst.
      destruct Hs as [Ha Hh]. rewrite Ha0 in Ha. rewrite Hh0 in Hh.
      injection Ha as <-. injection Hh as <-. by exists a0, h0.
    + destruct Hs as [-> ->]. by exists 0, 0.
  - destruct Hs as (sc & ta & th & za & zh & _ & Hsp & Hza & Hzh & -> & ->).
    pose proof (split_pieces "-" sc) as Hp. rewrite Hsp in Hp.
    inversion Hp as [|? ? Hta Hp']; subst.
    inversion Hp' as [|? ? Hth _]; subst.
    exists za, zh. split; [done|]. split; [done|].
    split; [exact (int_nonneg ta za Hta Hza) | exact (int_nonneg th zh Hth Hzh)].
Qed.

Lemma scores_never_negative_witness :
  let rows := [Example.unscored "12:00" "bos" "Start";
               Example.scored "11:40" "lal" "Layup" "0-2"] in
  let g := [Example.play "0:00:00" "12:00" 1 "Start" EmptyString 0 0;
            Example.play "0:00:20" "11:40" 1 EmptyString "Layup" 0 2] in
  adjust_game "BOS" rows "nba" = Ok g /\ Forall scores_natural g.
Proof.
  intros rows g.
  assert (E : adjust_game "BOS" rows "nba" = Ok g) by compute_done.
  split; [exact E|]. exact (scores_never_negative "BOS" "nba" rows g E).
Defined.

(** *** Leagues *)

Lemma calc_overall_time_league (seconds minutes q : Z) (l1 l2 : string) :
  _league_time l1 = _league_time l2 ->
  _calc_overall_time seconds minutes q l1
  = _calc_overall_time seconds minutes q l2.
Proof. unfold _calc_overall_time. by intros ->. Qed.

Lemma adjust_time_league (time : string) (q : Z) (e : bool) (l1 l2 : string) :
  _league_time l1 = _league_time l2 ->
  _adjust_time time q e l1 = _adjust_time time q e l2.
Proof.
  intros H. rewrite !adjust_time_eq.
  destruct (parse_clock time) as [[m s]|]; [simpl|done].
  destruct (transition m q e) as [q' e'].
  by rewrite (calc_overall_time_league _ _ _ _ _ H).
Qed.

Lemma adjust_game_loop_league (away_team l1 l2 : string) (plays : list row)
    (st : state) :
  _league_time l1 = _league_time l2 ->
  adjust_game_loop away_team l1 st plays
  = adjust_game_loop away_team l2 st plays.
Proof.
  intros H. revert st. induction plays as [|play plays IH]; intros st; [done|].
  simpl.
  assert (Hb : adjust_game_body away_team l1 st play
               = adjust_game_body away_team l2 st play).
  { unfold adjust_game_body. destruct (find_time_stamp play); [|done].
    destruct (_play_as_dict away_team play); [simpl|done].
    by rewrite (adjust_time_league _ _ _ _ _ H). }
  rewrite Hb. destruct (adjust_game_body away_team l2 st play); [apply IH|done].
Qed.

(** X7. [adjust_game] compares the league with ['nba'] as it is given:
    every other league text, ['NBA'] in capitals among them, is normalised
    with the two halves of twenty minutes, as ['ncb'] is. *)
Theorem other_leagues_as_ncb (away_team league : string) (plays : list row) :
  league <> "nba" ->
  adjust_game away_team plays league = adjust_game away_team plays "ncb".
Proof.
  intros Hne. unfold adjust_game.
  rewrite (adjust_game_loop_league away_team league "ncb"); [done|].
  unfold _league_time. apply String.eqb_neq in Hne. by rewrite Hne.
Qed.

Lemma other_leagues_as_ncb_witness :
  "NBA" <> "nba" /\
  adjust_game "BOS" [Example.unscored "12:00" "bos" "Start"] "NBA"
  = Ok [Example.play "0:08:00" "12:00" 1 "Start" EmptyString 0 0].
Proof.
  split; [discriminate|].
  rewrite (other_leagues_as_ncb "BOS" "NBA"); [compute_done | discriminate].
Defined.

(** *** The elapsed time *)

(** X8. The elapsed time runs on across a period boundary, in regulation
    and into every overtime: the clock [0:00] of period [p] and the full
    clock of period [p + 1] (the regular length up to the last regulation
    period, five minutes afterwards) get the same elapsed time. *)
Theorem elapsed_continuous_across_periods (league : string) (p : Z) :
  1 <= p < 10 ^ 9 ->
  exists t,
    _calc_overall_time 0 0 p league = Ok t /\
    _calc_overall_time 0 (minutes_played league (p + 1)) (p + 1) league = Ok t.
Proof.
  intros Hp.
  assert (H9 : 10 ^ 9 = 1000000000) by reflexivity.
  assert (Hm : 0 <= minutes_played league (p + 1) <= 20).
  { unfold minutes_played.
    destruct (league_time_cases league) as [-> | ->]; case_match; lia. }
  eexists. split; [apply calc_overall_time_total; lia|].
  rewrite calc_overall_time_total by lia. do 2 f_equal.
  unfold Spec.elapsed_seconds, Spec.previous_minutes, Spec.period_length,
    minutes_played.
  destruct (league_time_cases league) as [-> | ->];
    repeat case_match; zbool; lia.
Qed.

Lemma elapsed_continuous_across_periods_witness :
  1 <= 3 < 10 ^ 9 /\
  _calc_overall_time 0 0 3 "nba" = Ok "0:36:00" /\
  _calc_overall_time 0 12 4 "nba" = Ok "0:36:00".
Proof.
  assert (Hp : 1 <= 3 < 10 ^ 9) by (split; compute_done).
  split; [exact Hp|].
  destruct (elapsed_continuous_across_periods "nba" 3 Hp) as (t & H1 & H2).
  assert (Ht : t = "0:36:00").
  { assert (E : _calc_overall_time 0 0 3 "nba" = Ok "0:36:00") by reflexivity.
    rewrite E in H1. by injection H1 as <-. }
  rewrite Ht in H1, H2. split; [exact H1 | exact H2].
Defined.

(** X9. Inside a period the elapsed-time text determines the clock: two
    clocks of the same period and league that get the same ['overall_time']
    show the same number of seconds remaining. *)
Theorem overall_time_determines_clock (league : string)
    (q m1 s1 m2 s2 : Z) (t : string) :
  _calc_overall_time s1 m1 q league = Ok t ->
  _calc_overall_time s2 m2 q league = Ok t ->
  60 * m1 + s1 = 60 * m2 + s2.
Proof.
  intros H1 H2. apply calc_overall_time_inv in H1, H2. rewrite H1 in H2.
  apply timedelta_str_inj in H2. unfold Spec.elapsed_seconds in H2. lia.
Qed.

Lemma overall_time_determines_clock_witness :
  _calc_overall_time 58 11 2 "nba" = Ok "0:12:02" /\
  _calc_overall_time 118 10 2 "nba" = Ok "0:12:02" /\
  60 * 11 + 58 = 60 * 10 + 118.
Proof.
  assert (H1 : _calc_overall_time 58 11 2 "nba" = Ok "0:12:02")
    by reflexivity.
  assert (H2 : _calc_overall_time 118 10 2 "nba" = Ok "0:12:02")
    by reflexivity.
  split; [exact H1|]. split; [exact H2|].
  exact (overall_time_determines_clock "nba" 2 11 58 10 118 _ H1 H2).
Defined.

(** *** The away side *)

Lemma upper_char_idem (c : ascii) :
  Str.upper_char (Str.upper_char c) = Str.upper_char c.
Proof. destruct c as [[] [] [] [] [] [] [] []]; reflexivity. Qed.

Lemma upper_idem (s : string) : Str.upper (Str.upper s) = Str.upper s.
Proof.
  unfold Str.upper. rewrite chars_of_chars, map_map. f_equal.
  apply map_ext. intros c. apply upper_char_idem.
Qed.

(** X10. The logo identifier is compared in capitals: when [away_team] is
    not written in capitals (it differs from its own [upper()]), no row
    is ever attributed to the away side - every emitted play has an empty
    ['away_play']. *)
Theorem lowercase_away_team_never_matches (away_team league : string)
    (plays : list row) (g : list dict) :
  Str.upper away_team <> away_team ->
  adjust_game away_team plays league = Ok g ->
  Forall (fun p => p !! "away_play" = Some (VStr EmptyString)) g.
Proof.
  intros Hu. apply adjust_game_Forall.
  intros g0 play time q' m s lg tx a h _ _ Hl _.
  pose proof (play_of_fields away_team league time q' m s lg tx a h)
    as (_ & _ & _ & Fa & _).
  rewrite Fa. destruct (String.eqb_spec lg away_team) as [->|_]; [|done].
  exfalso. apply Hu. unfold logo_id in Hl.
  destruct (Re.search_logo _) as [m0|]; [|discriminate].
  injection Hl as <-. apply upper_idem.
Qed.

Lemma lowercase_away_team_never_matches_witness :
  let g := [Example.play "0:00:20" "11:40" 1 EmptyString "Layup" 2 0] in
  Str.upper "Bos" <> "Bos" /\
  adjust_game "Bos" [Example.scored "11:40" "bos" "Layup" "2-0"] "nba" = Ok g /\
  Forall (fun p : dict => p !! "away_play" = Some (VStr EmptyString)) g.
Proof.
  intros g.
  assert (Hu : Str.upper "Bos" <> "Bos") by discriminate.
  assert (E : adjust_game "Bos" [Example.scored "11:40" "bos" "Layup" "2-0"]
                "nba" = Ok g) by compute_done.
  split; [exact Hu|]. split; [exact E|].
  exact (lowercase_away_team_never_matches "Bos" "nba" _ g Hu E).
Defined.

(** *** Periods *)

Lemma adjust_game_loop_first (away_team league : string) (plays : list row)
    (st st' : state) (p : dict) :
  adjust_game_loop away_team league st plays = Ok st' ->
  game st = [] -> quarter st = 1 -> end_of_quarter st = false ->
  game st' !! 0%nat = Some p -> quarter_of p 1.
Proof.
  revert st. induction plays as [|play plays IH]; intros st H Hg Hq He Hp;
    simpl in H.
  - injection H as <-. by rewrite Hg in Hp.
  - inv_bind H as st1 Hb.
    destruct (find_time_stamp play) as [time|] eqn:Et.
    + destruct (adjust_game_body_step _ _ _ _ _ _ Et Hb)
        as (m & s & lg & tx & a & h & _ & Htr & _ & _ & _ & Hg1).
      rewrite He in Htr. apply transition_cases in Htr.
      assert (Hq1 : quarter st1 = 1).
      { destruct Htr as [Hx|[Hx|Hx]]; destruct Hx as (? & ? & ? & ?);
          congruence. }
      apply adjust_game_loop_prefix in H as [k Hk].
      rewrite Hk, Hg1, Hg, Hq1 in Hp. simpl in Hp. injection Hp as <-.
      apply play_of_fields.
    + rewrite adjust_game_body_skip in Hb by done. injection Hb as <-.
      by apply (IH st).
Qed.

(** X11. The periods that the emitted plays record start at 1 and never
    skip a number: the first play is in period 1, and each play is in the
    period of the play before it or in the next one. *)
Theorem periods_start_at_one_and_never_skip (away_team league : string)
    (plays : list row) (g : list dict) :
  adjust_game away_team plays league = Ok g ->
  (forall p, g !! 0%nat = Some p -> quarter_of p 1) /\
  (forall (i : nat) p1 p2,
      g !! i = Some p1 -> g !! S i = Some p2 ->
      exists q, quarter_of p1 q /\ (quarter_of p2 q \/ quarter_of p2 (q + 1))).
Proof.
  intros H. split.
  - intros p Hp. unfold adjust_game in H. inv_bind H as st Hl.
    injection H as <-. by eapply adjust_game_loop_first.
  - intros i p1 p2 H1 H2.
    apply adjust_game_inv in H as (st & _ & [_ Ht _ _ Hs] & <-).
    pose proof (Forall_lookup_1 _ _ _ _ Ht H1)
      as (q1 & ? & ? & (? & _ & _ & Q1) & _).
    pose proof (Forall_lookup_1 _ _ _ _ Ht H2)
      as (q2 & ? & ? & (? & _ & _ & Q2) & _).
    exists q1. split; [done|].
    destruct (Hs _ _ _ _ _ H1 H2 Q1 Q2) as [-> | ->]; auto.
Qed.

Lemma periods_start_at_one_and_never_skip_witness :
  let rows := [Example.unscored "0:00" "bos" "End of the 1st Quarter";
               Example.unscored "11:58" "lal" "Jump shot"] in
  let p1 := Example.play "0:12:00" "0:00" 1 "End of the 1st Quarter"
              EmptyString 0 0 in
  let p2 := Example.play "0:12:02" "11:58" 2 EmptyString "Jump shot" 0 0 in
  adjust_game "BOS" rows "nba" = Ok [p1; p2] /\ quarter_of p1 1.
Proof.
  intros rows p1 p2.
  assert (E : adjust_game "BOS" rows "nba" = Ok [p1; p2]) by compute_done.
  split; [exact E|].
  exact (proj1 (periods_start_at_one_and_never_skip "BOS" "nba" rows _ E)
           p1 eq_refl).
Defined.

(** ** The logo pattern *)

Lemma of_chars_app (a b : list ascii) :
  Str.of_chars (a ++ b) = Str.of_chars a +:+ Str.of_chars b.
Proof. induction a as [|c a IH]; simpl; [done | by rewrite IH]. Qed.

Lemma starts_with_true (p l : list ascii) :
  Re.starts_with p l = true <-> exists r, l = (p ++ r)%list.
Proof.
  revert l. induction p as [|a p IH]; intros l; simpl.
  - split; eauto.
  - destruct l as [|b l]; [split; [done | by intros [r [=]]]|].
    rewrite andb_true_iff, IH. split.
    + intros [Hab [r ->]]. apply Ascii.eqb_eq in Hab as ->. eauto.
    + intros [r [= -> ->]]. split; [apply Ascii.eqb_refl | eauto].
Qed.

Lemma lazy_plus_sound (l m : list ascii) :
  Re.lazy_plus l = Some m ->
  exists c post,
    l = (m ++ c :: Str.chars "png&amp;h=100&amp;w=100" ++ post)%list /\
    m <> [] /\ Forall (fun x => Re.is_newline x = false) m /\
    Re.is_newline c = false.
Proof.
  revert m. induction l as [|x l IH]; intros m; [done|].
  cbn [Re.lazy_plus]. destruct (Re.is_newline x) eqn:Ex; [done|].
  destruct (Re.lookahead l) eqn:El.
  - intros [= <-]. unfold Re.lookahead in El.
    destruct l as [|c r]; [done|]. apply andb_prop in El as [Ec Er].
    apply negb_true_iff in Ec. apply starts_with_true in Er as [post ->].
    exists c, post. repeat split; [done | by repeat constructor | done].
  - destruct (Re.lazy_plus l) as [m'|]; [|done]. intros [= <-].
    destruct (IH m' eq_refl) as (c & post & -> & _ & Hm & Hc).
    exists c, post. repeat split; [done | by constructor | done].
Qed.

Lemma search_chars_sound (l m : list ascii) :
  Re.search_chars l = Some m ->
  exists pre c post,
    l = (pre ++ Str.chars "500/" ++ m
         ++ c :: Str.chars "png&amp;h=100&amp;w=100" ++ post)%list /\
    m <> [] /\ Forall (fun x => Re.is_newline x = false) m /\
    Re.is_newline c = false.
Proof.
  induction l as [|x l IH]; [done|]. cbn [Re.search_chars].
  assert (Hrec : Re.search_chars l = Some m ->
                 exists pre c post,
                   (x :: l) = (pre ++ Str.chars "500/" ++ m
                     ++ c :: Str.chars "png&amp;h=100&amp;w=100" ++ post)%list
                   /\ m <> [] /\ Forall (fun x => Re.is_newline x = false) m
                   /\ Re.is_newline c = false).
  { intros H. destruct (IH H) as (pre & c & post & -> & Hm).
    by exists (x :: pre), c, post. }
  destruct (Re.starts_with (Str.chars "500/") (x :: l)) eqn:Es; [|done].
  apply starts_with_true in Es as [r Er]. rewrite Er.
  change (drop 4 (Str.chars "500/" ++ r)) with r. rewrite <- Er.
  destruct (Re.lazy_plus r) as [m'|] eqn:El; [|done].
  intros [= <-].
  apply lazy_plus_sound in El as (c & post & -> & Hm).
  exists [], c, post. by rewrite Er.
Qed.

(** X12. What [re.search] finds in the logo markup: the match is not
    empty, has no newline in it, stands in the markup right after [500/],
    and is followed there by one character that is not a newline and by
    [png&amp;h=100&amp;w=100]. *)
Theorem search_logo_sound (s m : string) :
  Re.search_logo s = Some m ->
  exists pre c post,
    s = pre +:+ "500/" +:+ m
        +:+ String c ("png&amp;h=100&amp;w=100" +:+ post) /\
    m <> EmptyString /\
    Forall (fun x => Re.is_newline x = false) (Str.chars m) /\
    Re.is_newline c = false.
Proof.
  unfold Re.search_logo. destruct (Re.search_chars _) as [l|] eqn:E; [|done].
  intros [= <-].
  apply search_chars_sound in E as (pre & c & post & E & Hm & Hn & Hc).
  exists (Str.of_chars pre), c, (Str.of_chars post).
  rewrite chars_of_chars. repeat split; [|by destruct l|done|done].
  rewrite <- (of_chars_chars s), E.
  by rewrite !of_chars_app.
Qed.

Lemma search_logo_sound_witness :
  Re.search_logo (Example.logo_cell "bos") = Some "bos" /\
  exists pre c post,
    Example.logo_cell "bos"
    = pre +:+ "500/" +:+ "bos"
      +:+ String c ("png&amp;h=100&amp;w=100" +:+ post) /\
    "bos" <> EmptyString /\
    Forall (fun x => Re.is_newline x = false) (Str.chars "bos") /\
    Re.is_newline c = false.
Proof.
  split; [reflexivity|].
  exact (search_logo_sound (Example.logo_cell "bos") "bos" eq_refl).
Defined.

Lemma pattern_not_early (r : list ascii) (rest : list ascii) :
  "&"%char ∉ r ->
  Re.starts_with (Str.chars "png&amp;h=100&amp;w=100")
    (r ++ "."%char :: rest) = false.
Proof.
  intros Hr.
  destruct (Re.starts_with _ _) eqn:E; [exfalso | done].
  apply starts_with_true in E as [x E].
  destruct r as [|a [|b [|c [|d r]]]]; simpl in E; try discriminate E.
  injection E as _ _ _ Hd _. apply Hr. rewrite Hd. do 3 right. left.
Qed.

Lemma lazy_plus_abbr (abbr rest : list ascii) :
  abbr <> [] ->
  Forall (fun c => Re.is_newline c = false) abbr -> "&"%char ∉ abbr ->
  Re.lazy_plus
    (abbr ++ "."%char :: Str.chars "png&amp;h=100&amp;w=100" ++ rest)
  = Some abbr.
Proof.
  induction abbr as [|c r IH]; [done|]. intros _ Hn Ha.
  apply Forall_cons in Hn as [Hc Hn]. apply not_elem_of_cons in Ha as [_ Ha].
  cbn [app Re.lazy_plus]. rewrite Hc.
  destruct r as [|c2 r'].
  - assert (El : Re.lookahead
                   ([] ++ "."%char :: Str.chars "png&amp;h=100&amp;w=100"
                    ++ rest) = true).
    { unfold Re.lookahead. cbn [app]. apply andb_true_intro. split; [done|].
      apply starts_with_true. eauto. }
    by rewrite El.
  - assert (El : Re.lookahead
                   ((c2 :: r') ++ "."%char
                    :: Str.chars "png&amp;h=100&amp;w=100" ++ rest) = false).
    { unfold Re.lookahead. cbn [app]. apply andb_false_iff. right.
      apply pattern_not_early. by apply not_elem_of_cons in Ha as [_ Ha]. }
    rewrite El, IH; done.
Qed.

Lemma search_chars_abbr (pre abbr rest : list ascii) :
  "5"%char ∉ pre -> abbr <> [] ->
  Forall (fun c => Re.is_newline c = false) abbr -> "&"%char ∉ abbr ->
  Re.search_chars
    (pre ++ Str.chars "500/" ++ abbr
     ++ "."%char :: Str.chars "png&amp;h=100&amp;w=100" ++ rest)
  = Some abbr.
Proof.
  intros Hp Ha Hn Hamp. induction pre as [|x pre IH].
  - change (Re.search_chars _) with
      (match Re.lazy_plus
               (abbr ++ "."%char
                :: Str.chars "png&amp;h=100&amp;w=100" ++ rest) with
       | Some m => Some m
       | None =>
           Re.search_chars
             (Str.chars "00/" ++ abbr ++ "."%char
              :: Str.chars "png&amp;h=100&amp;w=100" ++ rest)
       end).
    by rewrite lazy_plus_abbr.
  - apply not_elem_of_cons in Hp as [Hx Hp].
    cbn [app Re.search_chars].
    assert (Es : Re.starts_with (Str.chars "500/")
                   (x :: pre ++ Str.chars "500/" ++ abbr
                    ++ "."%char :: Str.chars "png&amp;h=100&amp;w=100"
                    ++ rest) = false).
    { destruct (Re.starts_with _ _) eqn:E; [exfalso | done].
      apply starts_with_true in E as [r E]. simpl in E.
      injection E as -> _. by apply Hx. }
    rewrite Es. by apply IH.
Qed.

(** X13. The logo identifier of a standard logo cell: when the markup is
    some text without a [5], then [500/], an abbreviation, the extension
    [.png&amp;h=100&amp;w=100] and anything after it, and the abbreviation
    is not empty and has no newline and no [&], the identifier that
    [_play_as_dict] compares with [away_team] is the abbreviation in
    capitals. *)
Theorem logo_id_of_standard_cell (play : row) (pre abbr post : string) :
  find_logo play
  = Some (pre +:+ "500/" +:+ abbr +:+ ".png&amp;h=100&amp;w=100" +:+ post) ->
  "5"%char ∉ Str.chars pre -> abbr <> EmptyString ->
  Forall (fun c => Re.is_newline c = false) (Str.chars abbr) ->
  "&"%char ∉ Str.chars abbr ->
  logo_id play = Some (Str.upper abbr).
Proof.
  intros Hl Hp Ha Hn Hamp. unfold logo_id, Re.search_logo. rewrite Hl.
  rewrite !chars_app.
  change (Str.chars ".png&amp;h=100&amp;w=100") with
    ("."%char :: Str.chars "png&amp;h=100&amp;w=100").
  change (("."%char :: Str.chars "png&amp;h=100&amp;w=100") ++ Str.chars post)%list
    with ("."%char :: Str.chars "png&amp;h=100&amp;w=100" ++ Str.chars post)%list.
  rewrite search_chars_abbr; [|done|by destruct abbr|done|done].
  simpl. by rewrite of_chars_chars.
Qed.

Lemma logo_id_of_standard_cell_witness :
  logo_id (Example.unscored "11:40" "okc" "Foul") = Some "OKC".
Proof.
  apply (logo_id_of_standard_cell _
           ("<td class=" +:+ Example.dq +:+ "logo" +:+ Example.dq
            +:+ "><img class=" +:+ Example.dq +:+ "team-logo" +:+ Example.dq
            +:+ " src=" +:+ Example.dq
            +:+ "https://a.espncdn.com/combiner/i?img=/i/teamlogos/nba/")
           "okc" (Example.dq +:+ "/></td>"));
    [reflexivity | compute_done | discriminate | compute_done | compute_done].
Defined.

(** * Properties of the rest of the module *)

(** ** [daterange] *)

(** X14. [daterange(start, end)] yields the days from [start] up to but not
    including [end], one after the other: the [i]-th date is [start] plus
    [i] days, there are [end - start] of them (none when [end] is not after
    [start]), and every one of them is an ordinal that a date can have when
    [start] and [end] are. *)
Theorem daterange_days (start end_ : Z) :
  length (daterange start end_) = Z.to_nat (end_ - start) /\
  (forall (i : nat) d,
      daterange start end_ !! i = Some d <->
      d = start + Z.of_nat i /\ Z.of_nat i < end_ - start) /\
  (forall d, d ∈ daterange start end_ <-> start <= d < end_) /\
  (daterange start end_ = [] <-> end_ <= start) /\
  (min_ordinal <= start -> end_ <= max_ordinal ->
   Forall (fun d => min_ordinal <= d <= max_ordinal) (daterange start end_)).
Proof.
  unfold daterange, Py.range.
  assert (Hm : forall d, d ∈ (fun n => start + n) <$> seqZ 0 (end_ - start)
                         <-> start <= d < end_).
  { intros d. rewrite list_elem_of_fmap. setoid_rewrite elem_of_seqZ. split.
    - intros (n & -> & Hn). lia.
    - intros Hd. exists (d - start). lia. }
  split; [by rewrite length_fmap, length_seqZ|].
  split; [|split; [exact Hm|split]].
  - intros i d. rewrite list_lookup_fmap, fmap_Some.
    setoid_rewrite lookup_seqZ. split.
    + intros (n & [-> Hn] & ->). lia.
    + intros [-> Hi]. exists (Z.of_nat i). lia.
  - split.
    + intros E. apply fmap_nil_inv in E.
      apply (f_equal length) in E. rewrite length_seqZ in E. simpl in E. lia.
    + intros Hle. by rewrite seqZ_nil by lia.
  - intros Hs He. apply Forall_forall. intros d Hd. apply Hm in Hd. lia.
Qed.

(** X15. Two ranges that meet make one: the days from [start] to [mid]
    followed by the days from [mid] to [end] are the days from [start] to
    [end]. *)
Theorem daterange_app (start mid end_ : Z) :
  start <= mid -> mid <= end_ ->
  (daterange start mid ++ daterange mid end_)%list = daterange start end_.
Proof.
  intros H1 H2. unfold daterange, Py.range.
  replace (end_ - start) with ((mid - start) + (end_ - mid)) by lia.
  rewrite seqZ_app, fmap_app by lia. f_equal.
  change (fun n => start + n) with (Z.add start).
  change (fun n => mid + n) with (Z.add mid).
  rewrite !fmap_add_seqZ. f_equal. lia.
Qed.

Lemma daterange_app_witness :
  1 <= 3 /\ 3 <= 6 /\
  (daterange 1 3 ++ daterange 3 6)%list = [1; 2; 3; 4; 5].
Proof.
  split; [lia|]. split; [lia|].
  rewrite (daterange_app 1 3 6); [reflexivity | lia | lia].
Defined.

(** ** [_format_scoreboard_url] *)

Lemma lower_upper_char (c : ascii) :
  Py.lower_char (Str.upper_char c) = Py.lower_char c.
Proof. destruct c as [[] [] [] [] [] [] [] []]; reflexivity. Qed.

Lemma lower_upper (s : string) : Py.lower (Str.upper s) = Py.lower s.
Proof.
  unfold Py.lower, Str.upper. rewrite chars_of_chars, map_map. f_equal.
  apply map_ext. intros c. apply lower_upper_char.
Qed.

Lemma chars_inj (a b : string) : Str.chars a = Str.chars b -> a = b.
Proof.
  intros E. apply (f_equal Str.of_chars) in E. by rewrite !of_chars_chars in E.
Qed.


Lemma scoreboard_url_shape (d : day) (league : string) :
  _format_scoreboard_url d league
  = "http://www.espn.com/"
    +:+ (Py.lower league
         +:+ ("/scoreboard/_/date/"
              +:+ ((match d with Date t => t | Text t => t end)
                   +:+ (if String.eqb (Py.lower league) "ncb"
                        then "&confId=50" else EmptyString)))).
Proof.
  unfold _format_scoreboard_url. apply chars_inj.
  destruct d, (String.eqb (Py.lower league) "ncb");
    cbn [app Py.join]; rewrite !chars_app; cbn [Str.chars list_ascii_of_string];
    by rewrite ?app_nil_r, <- ?app_assoc.
Qed.

(** X17. Two days that are written differently get different scoreboard
    addresses: for a given league the address determines the day text. *)
Theorem scoreboard_url_determines_day (s1 s2 league : string) :
  _format_scoreboard_url (Text s1) league
  = _format_scoreboard_url (Text s2) league ->
  s1 = s2.
Proof.
  rewrite !scoreboard_url_shape. intros E.
  apply (f_equal Str.chars) in E. rewrite !chars_app in E.
  do 3 apply app_inv_head in E. apply app_inv_tail in E.
  by apply chars_inj.
Qed.

Lemma scoreboard_url_determines_day_witness :
  _format_scoreboard_url (Text "20170115") "NCB"
  = "http://www.espn.com/ncb/scoreboard/_/date/20170115&confId=50" /\
  "20170115" = "20170115".
Proof.
  split; [reflexivity|].
  exact (scoreboard_url_determines_day "20170115" "20170115" "NCB" eq_refl).
Defined.

(** ** [scrape_links] *)

Lemma scrape_links_loop_eq (url_list f2 : list string) :
  scrape_links_loop url_list f2
  = (url_list
     ++ (Py.slice (-10) (-1)
         <$> filter (fun p => Py.contains recap_marker p = true) f2))%list.
Proof.
  revert url_list. induction f2 as [|piece rest IH]; intros url_list.
  - by rewrite app_nil_r.
  - cbn [scrape_links_loop]. rewrite filter_cons.
    destruct (Py.contains recap_marker piece) eqn:E.
    + rewrite decide_True by done. rewrite IH, <- app_assoc. done.
    + rewrite decide_False by done. apply IH.
Qed.

Lemma length_chars (s : string) : length (Str.chars s) = String.length s.
Proof. induction s as [|c s IH]; simpl; [done | by rewrite IH]. Qed.

Lemma contains_chars_true (n l : list ascii) :
  Py.contains_chars n l = true <-> exists a b, l = (a ++ n ++ b)%list.
Proof.
  induction l as [|c l IH]; cbn [Py.contains_chars].
  - rewrite orb_false_r, starts_with_true. split.
    + intros [r E]. by exists [], r.
    + intros (a & b & E). destruct a; [by exists b|done].
  - rewrite orb_true_iff, starts_with_true, IH. split.
    + intros [[r E]|(a & b & ->)]; [by exists [], r | by exists (c :: a), b].
    + intros (a & b & E). destruct a as [|x a].
      * left. by exists b.
      * right. injection E as -> ->. by exists a, b.
Qed.

Lemma slice_tail_length (s : string) :
  (10 <= String.length s)%nat ->
  String.length (Py.slice (-10) (-1) s) = 9%nat.
Proof.
  intros Hs. unfold Py.slice, Py.index.
  rewrite <- length_chars, chars_of_chars, length_drop, length_take.
  rewrite <- length_chars in Hs. simpl. lia.
Qed.

Lemma slice_elem (i j : Z) (s : string) (x : ascii) :
  x ∈ Str.chars (Py.slice i j s) -> x ∈ Str.chars s.
Proof.
  unfold Py.slice. rewrite chars_of_chars. intros H.
  apply list_elem_of_lookup in H as [k Hk]. rewrite lookup_drop in Hk.
  apply lookup_take_Some in Hk as [Hk _]. by eapply list_elem_of_lookup_2.
Qed.

(** X18. Every identifier that [scrape_links] returns has exactly nine
    characters, none of them a comma, and there are no more identifiers
    than comma-separated pieces of the page. *)
Theorem scrape_links_ids (url id : string) :
  id ∈ scrape_links url ->
  String.length id = 9%nat /\ (","%char ∉ Str.chars id) /\
  (length (scrape_links url) <= length (Str.split "," url))%nat.
Proof.
  unfold scrape_links. rewrite scrape_links_loop_eq. simpl. intros H.
  apply list_elem_of_fmap in H as (piece & -> & H).
  apply list_elem_of_filter in H as [Hc Hp].
  split; [|split].
  - apply slice_tail_length. unfold Py.contains in Hc.
    apply contains_chars_true in Hc as (a & b & E).
    rewrite <- length_chars, E, !length_app. simpl. lia.
  - intros Hin. apply slice_elem in Hin.
    pose proof (split_pieces "," url) as Hs. rewrite Forall_forall in Hs.
    by apply (Hs piece).
  - rewrite length_fmap. apply length_filter.
Qed.

Lemma scrape_links_ids_witness :
  let url := "{id:1,href:/nba/recap?gameId=400899380_,x:2}" in
  "400899380" ∈ scrape_links url /\
  String.length "400899380" = 9%nat /\
  (","%char ∉ Str.chars "400899380") /\
  (length (scrape_links url) <= length (Str.split "," url))%nat.
Proof.
  intros url.
  assert (H : "400899380" ∈ scrape_links url) by compute_done.
  split; [exact H|]. exact (scrape_links_ids url "400899380" H).
Defined.

Lemma split_chars_infix (sep : ascii) (l cur : list ascii) (p : string) :
  p ∈ Str.split_chars sep cur l ->
  exists a b, (rev cur ++ l)%list = (a ++ Str.chars p ++ b)%list.
Proof.
  revert cur. induction l as [|c l IH]; intros cur; cbn [Str.split_chars].
  - intros H. apply list_elem_of_singleton in H as ->.
    exists [], []. by rewrite chars_of_chars, !app_nil_r.
  - destruct (Ascii.eqb c sep).
    + intros H. apply elem_of_cons in H as [->|H].
      * exists [], (c :: l). by rewrite chars_of_chars.
      * apply IH in H as (a & b & E). simpl in E.
        exists (rev cur ++ c :: a)%list, b. rewrite E, <- !app_assoc. done.
    + intros H. apply IH in H as (a & b & E). exists a, b.
      rewrite <- E. simpl. by rewrite <- app_assoc.
Qed.

(** X19. A page that has no [/nba/recap?gameId=] in it - a scoreboard whose
    recap links are all of another league, for one - gives no identifier at
    all. *)
Theorem scrape_links_needs_nba_marker (url : string) :
  Py.contains recap_marker url = false -> scrape_links url = [].
Proof.
  intros Hn. unfold scrape_links. rewrite scrape_links_loop_eq. simpl.
  destruct (filter _ _) as [|piece k] eqn:Ef; [done|]. exfalso.
  assert (Hin : piece ∈ filter (fun p => Py.contains recap_marker p = true)
                  (Str.split "," url)) by (rewrite Ef; left).
  apply list_elem_of_filter in Hin as [Hc Hp].
  unfold Str.split in Hp. apply split_chars_infix in Hp as (a & b & E).
  simpl in E. unfold Py.contains in Hc, Hn.
  apply contains_chars_true in Hc as (a' & b' & E').
  assert (Ht : Py.contains_chars (Str.chars recap_marker) (Str.chars url)
               = true); [|congruence].
  apply contains_chars_true. exists (a ++ a')%list, (b' ++ b)%list.
  rewrite E, E', <- !app_assoc. done.
Qed.

Lemma scrape_links_needs_nba_marker_witness :
  Py.contains recap_marker "{href:/ncb/recap?gameId=400899380_,x:2}" = false /\
  scrape_links "{href:/ncb/recap?gameId=400899380_,x:2}" = [].
Proof.
  assert (H : Py.contains recap_marker
                "{href:/ncb/recap?gameId=400899380_,x:2}" = false)
    by reflexivity.
  split; [exact H|]. exact (scrape_links_needs_nba_marker _ H).
Defined.

Lemma split_chars_app_sep (sep : ascii) (a r cur : list ascii) :
  sep ∉ a ->
  Str.split_chars sep cur (a ++ sep :: r)
  = Str.of_chars (rev cur ++ a) :: Str.split_chars sep [] r.
Proof.
  revert cur. induction a as [|c a IH]; intros cur Hn; simpl.
  - by rewrite Ascii.eqb_refl, app_nil_r.
  - apply not_elem_of_cons in Hn as [Hc Hn].
    destruct (Ascii.eqb_spec c sep) as [->|_]; [done|].
    rewrite IH by done. simpl. by rewrite <- app_assoc.
Qed.

Lemma split_join (sep : ascii) (pieces : list string) :
  pieces <> [] -> Forall (fun p => sep ∉ Str.chars p) pieces ->
  Str.split sep (Py.join (String sep EmptyString) pieces) = pieces.
Proof.
  induction pieces as [|p rest IH]; [done|]. intros _ Hf.
  apply Forall_cons in Hf as [Hp Hf]. destruct rest as [|p2 rest].
  - by apply split_no_sep.
  - unfold Str.split in *. cbn [Py.join]. rewrite !chars_app.
    cbn [Str.chars list_ascii_of_string app].
    rewrite split_chars_app_sep by done. simpl.
    rewrite of_chars_chars. f_equal. by apply IH.
Qed.

(** X20. Splitting undoes joining: on a page that is a list of pieces
    without commas joined by commas, [scrape_links] returns, in order, the
    nine characters before the last one of each piece that has
    [/nba/recap?gameId=] in it. *)
Theorem scrape_links_of_joined_pieces (pieces : list string) :
  pieces <> [] -> Forall (fun p => ","%char ∉ Str.chars p) pieces ->
  scrape_links (Py.join "," pieces)
  = Py.slice (-10) (-1)
    <$> filter (fun p => Py.contains recap_marker p = true) pieces.
Proof.
  intros Hne Hf. unfold scrape_links.
  by rewrite scrape_links_loop_eq, (split_join "," pieces Hne Hf).
Qed.

Lemma scrape_links_of_joined_pieces_witness :
  let pieces := ["{id:1"; "href:/nba/recap?gameId=400899380_"; "x:2}";
                 "href:/nba/recap?gameId=400899381_"] in
  pieces <> [] /\ Forall (fun p => ","%char ∉ Str.chars p) pieces /\
  scrape_links (Py.join "," pieces) = ["400899380"; "400899381"].
Proof.
  intros pieces.
  assert (Hne : pieces <> []) by discriminate.
  assert (Hf : Forall (fun p => ","%char ∉ Str.chars p) pieces)
    by (repeat constructor; compute_done).
  split; [exact Hne|]. split; [exact Hf|].
  rewrite (scrape_links_of_joined_pieces pieces Hne Hf). reflexivity.
Defined.

(** X21. The identifier taken from a piece is what stands between the text
    before it and the last character of the piece: for a piece that ends
    with nine characters and one more, [piece[-10:-1]] is the nine. *)
Theorem slice_takes_the_id (pre id : string) (c : ascii) :
  String.length id = 9%nat ->
  Py.slice (-10) (-1) (pre +:+ id +:+ String c EmptyString) = id.
Proof.
  intros Hid. unfold Py.slice. rewrite !chars_app.
  cbn [Str.chars list_ascii_of_string].
  set (P := Str.chars pre). set (I := Str.chars id).
  assert (HI : length I = 9%nat) by (subst I; by rewrite length_chars).
  assert (Ha : Z.to_nat (Py.index (Z.of_nat (length (P ++ I ++ [c]))) (-10))
               = length P).
  { unfold Py.index. rewrite !length_app. simpl. lia. }
  assert (Hb : Z.to_nat (Py.index (Z.of_nat (length (P ++ I ++ [c]))) (-1))
               = length (P ++ I)).
  { unfold Py.index. rewrite !length_app. simpl. lia. }
  rewrite Ha, Hb, app_assoc, take_app_length, drop_app_length.
  apply of_chars_chars.
Qed.

Lemma slice_takes_the_id_witness :
  String.length "400899380" = 9%nat /\
  Py.slice (-10) (-1)
    ("href:http://www.espn.com/nba/recap?gameId=" +:+ "400899380"
     +:+ String "034"%char EmptyString)
  = "400899380".
Proof.
  split; [reflexivity|].
  exact (slice_takes_the_id "href:http://www.espn.com/nba/recap?gameId="
           "400899380" "034"%char eq_refl).
Defined.

(** ** [parse_plays] *)

Lemma length_omap_le {A B : Type} (f : A -> option B) (l : list A) :
  (length (omap f l) <= length l)%nat.
Proof.
  induction l as [|x l IH]; [done|]. csimpl. destruct (f x); simpl; lia.
Qed.


(** X23. When [parse_plays] returns, the two teams are the first two team
    names of the page, the table has a first row that gives no play, and
    the plays are those of the rows after it, normalised for the league in
    lower case: one play for each of these rows that has a clock, with the
    clock text of the row, and so fewer plays than the table has rows. *)
Theorem parse_plays_skips_header (soup : page) (league away_team home_team : string)
    (g : list dict) :
  parse_plays soup league = Ok (away_team, home_team, g) ->
  team_names soup !! 0%nat = Some away_team /\
  team_names soup !! 1%nat = Some home_team /\
  exists header rows,
    find_table soup = Some (header :: rows) /\
    adjust_game away_team rows (Py.lower league) = Ok g /\
    Forall2 quarter_time_of g (time_stamps rows) /\
    (length g < length (header :: rows))%nat.
Proof.
  unfold parse_plays. intros H.
  inv_bind H as a Ha. apply from_option_Ok_inv in Ha.
  inv_bind H as h Hh. apply from_option_Ok_inv in Hh.
  inv_bind H as rows0 Ht. apply from_option_Ok_inv in Ht.
  inv_bind H as rows Hr. destruct rows0 as [|header rows']; [done|].
  injection Hr as ->. inv_bind H as g0 Hg. injection H as <- <- <-.
  split; [done|]. split; [done|]. exists header, rows.
  split; [done|]. split; [done|].
  unfold adjust_game in Hg. inv_bind Hg as st Hl. injection Hg as <-.
  apply adjust_game_loop_time_stamps in Hl as (new & Hn & Hf).
  simpl in Hn. subst new. split; [done|].
  apply Forall2_length in Hf. rewrite Hf. unfold time_stamps. simpl.
  pose proof (length_omap_le find_time_stamp rows). lia.
Qed.

Lemma parse_plays_skips_header_witness :
  let soup :=
    {| find_table := Some [Example.header;
                           Example.unscored "12:00" "bos" "Start";
                           Example.scored "11:40" "lal" "Layup" "0-2"];
       team_names := ["BOS"; "LAL"] |} in
  let g := [Example.play "0:00:00" "12:00" 1 "Start" EmptyString 0 0;
            Example.play "0:00:20" "11:40" 1 EmptyString "Layup" 0 2] in
  parse_plays soup "NBA" = Ok ("BOS", "LAL", g) /\
  (length g < 3)%nat.
Proof.
  intros soup g.
  assert (E : parse_plays soup "NBA" = Ok ("BOS", "LAL", g)) by compute_done.
  split; [exact E|].
  destruct (parse_plays_skips_header soup "NBA" "BOS" "LAL" g E)
    as (_ & _ & header & rows & Ht & _ & _ & Hlen).
  injection Ht as <- <-. exact Hlen.
Defined.
